(** * Agenda back end: accounts and personal events

    A shallow embedding of [index.js]: the two mongoose collections
    ([User], [Event]), the store operations the route handlers call, and
    the eight route handlers themselves, followed by the properties of
    the credential and identity workflow.

    Modelling conventions.
    - A collection is a finite map from [_id] to document, so [_id] is a
      key and never repeats.  Fresh ids come from a counter kept next to
      the collections (mongoose draws an ObjectId when a document is
      constructed).
    - A request body is taken after JSON decoding: texts are [string]s,
      ids are [ObjectId]s, and a date is the number of milliseconds the
      request gives for it ([Z]).  That number is cast to a Date where
      the code casts it: by [save] for the Date paths of a schema and by
      [findOne] for a date in the query; the cast fails outside the
      range of a JavaScript Date.  The schema's [required: true]
      validators and the unique index on [email] are part of [save].
    - [bcrypt] is an external package.  Its [hash] and [compare] are
      parameters of the handlers, and the salt drawn by [genSalt] is an
      argument of the request that needs one.
    - A handler is a computation in the monad [M]: it threads the store,
      may throw, and records the store calls it makes in order.  [route]
      is the [try]/[catch] every handler is wrapped in. *)

From stdpp Require Import base option list gmap strings sorting fin_maps.

Open Scope Z_scope.

(** ** Data model *)

Definition ObjectId := nat.

(** The time values a JavaScript Date can hold: at most 8.64e15 ms on
    either side of the epoch.  [new Date(t)] for any other number is an
    Invalid Date, which mongoose does not cast to a Date. *)
Definition valid_date (t : Z) : Prop :=
  -8640000000000000 ≤ t ≤ 8640000000000000.

#[global] Instance valid_date_dec t : Decision (valid_date t).
Proof. unfold valid_date. apply _. Defined.

Module UserSchema.
Record doc := mk {
  name : string;
  email : string;
  password : string;
  birthDate : Z
}.

(** The two query shapes the handlers use: [{ email }] and
    [{ email, birthDate }]. *)
Inductive query :=
| ByEmail (e : string)
| ByEmailBirthDate (e : string) (b : Z).

Definition matches (q : query) (u : doc) : Prop :=
  match q with
  | ByEmail e => email u = e
  | ByEmailBirthDate e b => email u = e ∧ birthDate u = b
  end.

#[global] Instance matches_dec q u : Decision (matches q u).
Proof. destruct q; simpl; apply _. Defined.

(** Whether the values of a query cast to the types of their paths:
    the date of [{ email, birthDate: new Date(birthDate) }] must be a
    valid Date. *)
Definition castable (q : query) : Prop :=
  match q with
  | ByEmail _ => True
  | ByEmailBirthDate _ b => valid_date b
  end.

#[global] Instance castable_dec q : Decision (castable q).
Proof. destruct q; simpl; apply _. Defined.
End UserSchema.

Module EventSchema.
Record doc := mk {
  userId : ObjectId;
  eventName : string;
  venue : string;
  dateTime : Z
}.
End EventSchema.

Record Db := mkDb {
  users : gmap nat UserSchema.doc;
  events : gmap nat EventSchema.doc;
  next_oid : nat
}.

Definition empty_db : Db := mkDb ∅ ∅ 0%nat.

(** ** Exceptions, store calls and the handler monad *)

(** What a store call throws: the validation error of [save], with the
    set of paths that failed; the cast error of a query; the duplicate
    key error of a unique index. *)
Inductive Exn :=
| ValidationError (paths : gset string)
| CastError (path : string)
| DuplicateKey (index : string).

Inductive StoreCall :=
| UserFindOne (q : UserSchema.query)
| UserFindById (id : ObjectId)
| UserSave (id : ObjectId)
| UserFindByIdAndUpdate (id : ObjectId)
| UserFindByIdAndDelete (id : ObjectId)
| EventSave (id : ObjectId)
| EventFind (userId : ObjectId)
| EventDeleteMany (userId : ObjectId)
| EventFindByIdAndDelete (id : ObjectId).

Inductive Outcome (A : Type) :=
| Done (a : A)
| Thrown (e : Exn).
Arguments Done {A} a.
Arguments Thrown {A} e.

Definition M (A : Type) : Type := Db → Outcome A * Db * list StoreCall.

Definition M_ret {A} (a : A) : M A := λ db, (Done a, db, []).

Definition M_bind {A B} (f : A → M B) (m : M A) : M B := λ db,
  match m db with
  | (Done a, db1, l1) =>
      match f a db1 with
      | (o, db2, l2) => (o, db2, l1 ++ l2)
      end
  | (Thrown e, db1, l1) => (Thrown e, db1, l1)
  end.

#[global] Instance M_mret : MRet M := @M_ret.
#[global] Instance M_mbind : MBind M := @M_bind.

(** One store call: [f] computes the result and the new collections, and
    the call is recorded. *)
Definition call {A} (c : StoreCall) (f : Db → Outcome A * Db) : M A := λ db,
  (f db, [c]).

(** [new Model({...})]: the document gets its [_id] at construction. *)
Definition new_ObjectId : M ObjectId := λ db,
  (Done (next_oid db), mkDb (users db) (events db) (S (next_oid db)), []).

(** The first document of a collection that satisfies a query. *)
Definition first_match {A} (P : A → Prop) `{∀ x, Decision (P x)}
    (c : gmap nat A) : option (ObjectId * A) :=
  head (filter (λ kv, P kv.2) (map_to_list c)).

(** The [required: true] validator of a String path: the path fails
    when the text is empty. *)
Definition required (path : string) (v : string) : gset string :=
  if decide (v = "") then {[ path ]} else ∅.

(** A required Date path: the path fails when the value does not cast
    to a Date. *)
Definition required_date (path : string) (t : Z) : gset string :=
  if decide (valid_date t) then ∅ else {[ path ]}.

(** ** The User model *)

Module User.
Import UserSchema.

(** [findOne(query)] casts the query before it runs it. *)
Definition findOne (q : query) : M (option (ObjectId * doc)) :=
  call (UserFindOne q) (λ db,
    if decide (castable q) then (Done (first_match (matches q) (users db)), db)
    else (Thrown (CastError "birthDate"), db)).

Definition findById (id : ObjectId) : M (option doc) :=
  call (UserFindById id) (λ db, (Done (users db !! id), db)).

(** The paths of [UserSchema] that fail validation, all four being
    [required: true]. *)
Definition validate (u : doc) : gset string :=
  required "name" (name u) ∪ required "email" (email u)
    ∪ required "password" (password u) ∪ required_date "birthDate" (birthDate u).

Definition save (id : ObjectId) (u : doc) : M unit :=
  call (UserSave id) (λ db,
    if decide (validate u = ∅) then
      if decide (is_Some (users db !! id)) then (Thrown (DuplicateKey "_id"), db)
      else if decide (is_Some (first_match (matches (ByEmail (email u))) (users db)))
      then (Thrown (DuplicateKey "email"), db)
      else (Done (), mkDb (<[id := u]> (users db)) (events db) (next_oid db))
    else (Thrown (ValidationError (validate u)), db)).

(** [findByIdAndUpdate(id, { password })]: returns the document as it
    was before the update, or nothing when the id is absent. *)
Definition findByIdAndUpdate (id : ObjectId) (pw : string) : M (option doc) :=
  call (UserFindByIdAndUpdate id) (λ db,
    match users db !! id with
    | Some u =>
        (Done (Some u),
         mkDb (<[id := mk (name u) (email u) pw (birthDate u)]> (users db))
              (events db) (next_oid db))
    | None => (Done None, db)
    end).

Definition findByIdAndDelete (id : ObjectId) : M (option doc) :=
  call (UserFindByIdAndDelete id) (λ db,
    match users db !! id with
    | Some u => (Done (Some u), mkDb (delete id (users db)) (events db) (next_oid db))
    | None => (Done None, db)
    end).
End User.

(** ** The Event model *)

Module Event.
Import EventSchema.

(** The paths of [EventSchema] that fail validation.  The fourth
    required path, [userId], is an [ObjectId] by type and never fails. *)
Definition validate (e : doc) : gset string :=
  required "eventName" (eventName e) ∪ required "venue" (venue e)
    ∪ required_date "dateTime" (dateTime e).

Definition save (id : ObjectId) (e : doc) : M unit :=
  call (EventSave id) (λ db,
    if decide (validate e = ∅) then
      if decide (is_Some (events db !! id)) then (Thrown (DuplicateKey "_id"), db)
      else (Done (), mkDb (users db) (<[id := e]> (events db)) (next_oid db))
    else (Thrown (ValidationError (validate e)), db)).

(** [find({ userId })] *)
Definition find (owner : ObjectId) : M (list (ObjectId * doc)) :=
  call (EventFind owner) (λ db,
    (Done (filter (λ kv, userId kv.2 = owner) (map_to_list (events db))), db)).

Definition dateTime_asc (a b : ObjectId * doc) : Prop :=
  dateTime a.2 ≤ dateTime b.2.

#[global] Instance dateTime_asc_dec a b : Decision (dateTime_asc a b).
Proof. unfold dateTime_asc. apply _. Defined.

(** [.sort({ dateTime: 'asc' })] on a query. *)
Definition sort_dateTime_asc (q : M (list (ObjectId * doc)))
  : M (list (ObjectId * doc)) :=
  l ← q; mret (merge_sort dateTime_asc l).

(** [deleteMany({ userId })] *)
Definition deleteMany (owner : ObjectId) : M unit :=
  call (EventDeleteMany owner) (λ db,
    (Done (),
     mkDb (users db) (filter (λ kv, userId kv.2 ≠ owner) (events db)) (next_oid db))).

Definition findByIdAndDelete (id : ObjectId) : M (option doc) :=
  call (EventFindByIdAndDelete id) (λ db,
    match events db !! id with
    | Some e => (Done (Some e), mkDb (users db) (delete id (events db)) (next_oid db))
    | None => (Done None, db)
    end).
End Event.

(** ** Responses *)

Inductive Body :=
| Message (message : string)
| MessageError (message : string) (error : Exn)
| LoginBody (id : ObjectId) (name email : string)
| UserIdBody (userId : ObjectId)
| EventBody (_id : ObjectId) (event : EventSchema.doc)
| EventsBody (events : list (ObjectId * EventSchema.doc)).

Record Response := mkResponse { status : nat; body : Body }.

(** [try { ... } catch (error) { res.status(500).json(...) }] *)
Definition route (handler : M Response) (on_error : Exn → Response)
  : Db → Response * Db * list StoreCall := λ db,
  match handler db with
  | (Done r, db1, l) => (r, db1, l)
  | (Thrown e, db1, l) => (on_error e, db1, l)
  end.

(** ** The route handlers *)

Inductive Request :=
| Register (name email password : string) (birthDate : Z) (salt : string)
| Login (email password : string)
| VerifyIdentity (email : string) (birthDate : Z)
| ResetPassword (userId : ObjectId) (newPassword : string) (salt : string)
| DeleteOwnAccount (id : ObjectId) (password : string)
| CreateEvent (userId : ObjectId) (eventName venue : string) (dateTime : Z)
| ListEvents (userId : ObjectId)
| DeleteEvent (id : ObjectId).

Definition server_error (message : string) (error : Exn) : Response :=
  mkResponse 500 (MessageError message error).

(** The credential scheme of the server's first revision, which stored
    the password as sent and looked users up by [{ email, password }]:
    hashing is the identity and comparison is equality.  It is the
    concrete scheme the examples below run the handlers with. *)
Definition plain_hash (data salt : string) : string := data.
Definition plain_compare (data encrypted : string) : bool :=
  bool_decide (data = encrypted).

(** ** Store invariants *)

Definition emails_unique (us : gmap nat UserSchema.doc) : Prop :=
  ∀ i j u v, us !! i = Some u → us !! j = Some v →
    UserSchema.email u = UserSchema.email v → i = j.

(** Ids were all drawn from the counter, and the unique index on
    [email] holds. *)
Record db_wf (db : Db) : Prop := mk_db_wf {
  wf_user_ids : ∀ i u, users db !! i = Some u → (i < next_oid db)%nat;
  wf_event_ids : ∀ i e, events db !! i = Some e → (i < next_oid db)%nat;
  wf_emails : emails_unique (users db)
}.

(** Every event's [userId] is the [_id] of a user. *)
Definition owners_exist (db : Db) : Prop :=
  ∀ i e, events db !! i = Some e → is_Some (users db !! EventSchema.userId e).

(** The number of users an event's [userId] refers to. *)
Definition owner_count (db : Db) (e : EventSchema.doc) : nat :=
  length (filter (λ kv, kv.1 = EventSchema.userId e) (map_to_list (users db))).

(** A [CreateEvent] request names a user that exists. *)
Definition owner_known (r : Request) (db : Db) : Prop :=
  match r with
  | CreateEvent userId _ _ _ => is_Some (users db !! userId)
  | _ => True
  end.

(** The one response [login] gives to a request it turns down. *)
Definition invalid_credentials : Response :=
  mkResponse 401 (Message "Email ou senha inválidos.").

Section Handlers.

(** [bcrypt.hash(data, salt)] and [bcrypt.compare(data, encrypted)]. *)
Variable bcrypt_hash : string → string → string.
Variable bcrypt_compare : string → string → bool.

(** POST /api/users/register *)
Definition register (name email password : string) (birthDate : Z) (salt : string)
  : Db → Response * Db * list StoreCall :=
  route
    (existingUser ← User.findOne (UserSchema.ByEmail email);
     match existingUser with
     | Some _ => mret (mkResponse 400 (Message "Email já está em uso."))
     | None =>
         let hashedPassword := bcrypt_hash password salt in
         _id ← new_ObjectId;
         User.save _id (UserSchema.mk name email hashedPassword birthDate);;
         mret (mkResponse 201 (Message "Utilizador criado com sucesso!"))
     end)
    (server_error "Erro no servidor").

(** POST /api/users/login *)
Definition login (email password : string) : Db → Response * Db * list StoreCall :=
  route
    (user ← User.findOne (UserSchema.ByEmail email);
     match user with
     | None => mret (mkResponse 401 (Message "Email ou senha inválidos."))
     | Some (_id, user) =>
         let isMatch := bcrypt_compare password (UserSchema.password user) in
         if negb isMatch
         then mret (mkResponse 401 (Message "Email ou senha inválidos."))
         else mret (mkResponse 200
                      (LoginBody _id (UserSchema.name user) (UserSchema.email user)))
     end)
    (server_error "Erro no servidor").

(** POST /api/users/verify-identity *)
Definition verify_identity (email : string) (birthDate : Z)
  : Db → Response * Db * list StoreCall :=
  route
    (user ← User.findOne (UserSchema.ByEmailBirthDate email birthDate);
     match user with
     | None => mret (mkResponse 404 (Message "Dados não encontrados."))
     | Some (_id, _) => mret (mkResponse 200 (UserIdBody _id))
     end)
    (server_error "Erro no servidor").

(** POST /api/users/reset-password *)
Definition reset_password (userId : ObjectId) (newPassword salt : string)
  : Db → Response * Db * list StoreCall :=
  route
    (let hashedPassword := bcrypt_hash newPassword salt in
     updatedUser ← User.findByIdAndUpdate userId hashedPassword;
     match updatedUser with
     | None => mret (mkResponse 404 (Message "Utilizador não encontrado."))
     | Some _ => mret (mkResponse 200 (Message "Senha redefinida com sucesso!"))
     end)
    (server_error "Erro no servidor").

(** DELETE /api/users/me/:id *)
Definition delete_own_account (userId : ObjectId) (password : string)
  : Db → Response * Db * list StoreCall :=
  route
    (user ← User.findById userId;
     match user with
     | None => mret (mkResponse 404 (Message "Utilizador não encontrado."))
     | Some user =>
         let isMatch := bcrypt_compare password (UserSchema.password user) in
         if negb isMatch
         then mret (mkResponse 401 (Message "Senha incorreta."))
         else
           Event.deleteMany userId;;
           User.findByIdAndDelete userId;;
           mret (mkResponse 200 (Message "Conta apagada com sucesso."))
     end)
    (server_error "Erro no servidor").

(** POST /api/events *)
Definition create_event (userId : ObjectId) (eventName venue : string) (dateTime : Z)
  : Db → Response * Db * list StoreCall :=
  route
    (_id ← new_ObjectId;
     let newEvent := EventSchema.mk userId eventName venue dateTime in
     Event.save _id newEvent;;
     mret (mkResponse 201 (EventBody _id newEvent)))
    (server_error "Erro ao criar evento").

(** GET /api/events/:userId *)
Definition list_events (userId : ObjectId) : Db → Response * Db * list StoreCall :=
  route
    (events ← Event.sort_dateTime_asc (Event.find userId);
     mret (mkResponse 200 (EventsBody events)))
    (server_error "Erro ao obter eventos").

(** DELETE /api/events/:id *)
Definition delete_event (id : ObjectId) : Db → Response * Db * list StoreCall :=
  route
    (deletedEvent ← Event.findByIdAndDelete id;
     match deletedEvent with
     | None => mret (mkResponse 404 (Message "Evento não encontrado."))
     | Some _ => mret (mkResponse 200 (Message "Evento apagado com sucesso."))
     end)
    (server_error "Erro ao apagar evento").

(** The server: one request, one response. *)
Definition handle (r : Request) : Db → Response * Db * list StoreCall :=
  match r with
  | Register name email password birthDate salt =>
      register name email password birthDate salt
  | Login email password => login email password
  | VerifyIdentity email birthDate => verify_identity email birthDate
  | ResetPassword userId newPassword salt => reset_password userId newPassword salt
  | DeleteOwnAccount id password => delete_own_account id password
  | CreateEvent userId eventName venue dateTime =>
      create_event userId eventName venue dateTime
  | ListEvents userId => list_events userId
  | DeleteEvent id => delete_event id
  end.

Definition response (x : Response * Db * list StoreCall) : Response := x.1.1.
Definition db_after (x : Response * Db * list StoreCall) : Db := x.1.2.
Definition calls (x : Response * Db * list StoreCall) : list StoreCall := x.2.

Fixpoint run (rs : list Request) (db : Db) : Db :=
  match rs with
  | [] => db
  | r :: rs => run rs (db_after (handle r db))
  end.

(** States the server can be in: it starts with empty collections and
    serves one request after another. *)
Inductive reachable : Db → Prop :=
| reachable_empty : reachable empty_db
| reachable_handle r db : reachable db → reachable (db_after (handle r db)).

(** The same, when every [CreateEvent] is sent for an existing user. *)
Inductive reachable_owned : Db → Prop :=
| reachable_owned_empty : reachable_owned empty_db
| reachable_owned_handle r db :
    reachable_owned db → owner_known r db →
    reachable_owned (db_after (handle r db)).

End Handlers.

(** ** Sample states *)

(** One registered user. *)
Definition ana_registered : Db :=
  db_after (register plain_hash "Ana" "ana@agenda.pt" "segredo" 631152000000 "s"
              empty_db).

(** The same user with two events, the later one created first. *)
Definition ana_with_events : Db :=
  run plain_hash plain_compare
    [CreateEvent 0%nat "Concerto" "Coliseu" 1767225600000;
     CreateEvent 0%nat "Jantar" "Casa" 1764547200000]
    ana_registered.

(** What [login] turns down: the store holds no user with that email, or
    the user the lookup returns has a stored hash the password does not
    verify against. *)
Inductive login_failure (bcrypt_compare : string → string → bool)
    (db : Db) (email password : string) : Prop :=
| unknown_email :
    (∀ i u, users db !! i = Some u → UserSchema.email u ≠ email) →
    login_failure bcrypt_compare db email password
| wrong_password i u :
    first_match (UserSchema.matches (UserSchema.ByEmail email)) (users db)
      = Some (i, u) →
    bcrypt_compare password (UserSchema.password u) = false →
    login_failure bcrypt_compare db email password.

(** The documents a store holds passed the [required] validators of
    the text paths that only [save] writes. *)
Definition schema_valid (db : Db) : Prop :=
  (∀ i u, users db !! i = Some u →
          UserSchema.name u ≠ "" ∧ UserSchema.email u ≠ "") ∧
  (∀ i e, events db !! i = Some e →
          EventSchema.eventName e ≠ "" ∧ EventSchema.venue e ≠ "").

(** The routes that write to the User collection, and those that write
    to the Event collection. *)
Definition touches_users (r : Request) : bool :=
  match r with
  | Register _ _ _ _ _ | ResetPassword _ _ _ | DeleteOwnAccount _ _ => true
  | _ => false
  end.

Definition touches_events (r : Request) : bool :=
  match r with
  | DeleteOwnAccount _ _ | CreateEvent _ _ _ _ | DeleteEvent _ => true
  | _ => false
  end.

(** ** Queries *)

Section first_match.
Context {A : Type} (P : A → Prop) `{!∀ x, Decision (P x)}.
Implicit Types (c : gmap nat A).

Lemma first_match_Some c i x :
  first_match P c = Some (i, x) → c !! i = Some x ∧ P x.
Proof.
  unfold first_match. intros Hhd. apply head_Some_elem_of in Hhd.
  apply list_elem_of_filter in Hhd as [HP Hin].
  by apply elem_of_map_to_list in Hin.
Qed.

Lemma first_match_None c :
  first_match P c = None ↔ ∀ i x, c !! i = Some x → ¬ P x.
Proof.
  unfold first_match. rewrite head_None. split.
  - intros Hnil i x Hix HP.
    apply (filter_nil_not_elem_of _ _ (i, x) Hnil); [done|].
    by apply elem_of_map_to_list.
  - intros Hno. destruct (filter _ _) as [|[i x] l] eqn:Hf; [done|].
    assert ((i, x) ∈ (i, x) :: l) as Hin by left. rewrite <- Hf in Hin.
    apply list_elem_of_filter in Hin as [HP Hin].
    apply elem_of_map_to_list in Hin. by destruct (Hno i x).
Qed.

Lemma first_match_is_Some c i x :
  c !! i = Some x → P x → is_Some (first_match P c).
Proof.
  intros Hix HP. destruct (first_match P c) eqn:Hf; [by eexists|].
  rewrite first_match_None in Hf. by destruct (Hf i x).
Qed.

(** When a single document satisfies the query, that is the one found. *)
Lemma first_match_unique c i x :
  c !! i = Some x → P x →
  (∀ j y, c !! j = Some y → P y → j = i) →
  first_match P c = Some (i, x).
Proof.
  intros Hix HP Huniq.
  destruct (first_match_is_Some c i x Hix HP) as [[j y] Hf].
  destruct (first_match_Some _ _ _ Hf) as [Hjy HPy].
  assert (j = i) as -> by eauto. by simplify_eq.
Qed.

End first_match.

(** ** What each handler computes *)

Ltac run_handler :=
  unfold route, User.findOne, User.findById, User.save, User.findByIdAndUpdate,
    User.findByIdAndDelete, Event.save, Event.find, Event.sort_dateTime_asc,
    Event.deleteMany, Event.findByIdAndDelete, new_ObjectId, call,
    mbind, M_mbind, M_bind, mret, M_mret, M_ret; simpl.

Section HandlerEquations.
Variable bcrypt_hash : string → string → string.
Variable bcrypt_compare : string → string → bool.

Lemma register_eq name email password birthDate salt db :
  register bcrypt_hash name email password birthDate salt db =
  match first_match (UserSchema.matches (UserSchema.ByEmail email)) (users db) with
  | Some _ =>
      (mkResponse 400 (Message "Email já está em uso."), db,
       [UserFindOne (UserSchema.ByEmail email)])
  | None =>
      let u := UserSchema.mk name email (bcrypt_hash password salt) birthDate in
      let db1 := mkDb (users db) (events db) (S (next_oid db)) in
      (if decide (User.validate u = ∅) then
         if decide (is_Some (users db !! next_oid db))
         then (server_error "Erro no servidor" (DuplicateKey "_id"), db1)
         else (mkResponse 201 (Message "Utilizador criado com sucesso!"),
               mkDb (<[next_oid db := u]> (users db)) (events db)
                    (S (next_oid db)))
       else (server_error "Erro no servidor" (ValidationError (User.validate u)),
             db1),
       [UserFindOne (UserSchema.ByEmail email); UserSave (next_oid db)])
  end.
Proof.
  unfold register. run_handler.
  destruct (first_match _ _) as [[i v]|] eqn:Hfind; [reflexivity|]. simpl.
  rewrite Hfind.
  repeat case_decide;
    first [reflexivity | contradiction | exfalso; by eapply is_Some_None].
Qed.

Lemma create_event_eq userId eventName venue dateTime db :
  create_event userId eventName venue dateTime db =
  let e := EventSchema.mk userId eventName venue dateTime in
  let db1 := mkDb (users db) (events db) (S (next_oid db)) in
  (if decide (Event.validate e = ∅) then
     if decide (is_Some (events db !! next_oid db))
     then (server_error "Erro ao criar evento" (DuplicateKey "_id"), db1)
     else (mkResponse 201 (EventBody (next_oid db) e),
           mkDb (users db) (<[next_oid db := e]> (events db)) (S (next_oid db)))
   else (server_error "Erro ao criar evento" (ValidationError (Event.validate e)),
         db1),
   [EventSave (next_oid db)]).
Proof.
  unfold create_event. run_handler.
  repeat case_decide; first [reflexivity | contradiction].
Qed.

Lemma login_eq email password db :
  login bcrypt_compare email password db =
  (match first_match (UserSchema.matches (UserSchema.ByEmail email)) (users db) with
   | None => invalid_credentials
   | Some (_id, user) =>
       if bcrypt_compare password (UserSchema.password user)
       then mkResponse 200
              (LoginBody _id (UserSchema.name user) (UserSchema.email user))
       else invalid_credentials
   end, db, [UserFindOne (UserSchema.ByEmail email)]).
Proof.
  unfold login. run_handler.
  destruct (first_match _ _) as [[i u]|]; [|done].
  by destruct (bcrypt_compare _ _).
Qed.

Lemma verify_identity_eq email birthDate db :
  verify_identity email birthDate db =
  (if decide (valid_date birthDate) then
     match first_match
             (UserSchema.matches (UserSchema.ByEmailBirthDate email birthDate))
             (users db) with
     | None => mkResponse 404 (Message "Dados não encontrados.")
     | Some (_id, _) => mkResponse 200 (UserIdBody _id)
     end
   else server_error "Erro no servidor" (CastError "birthDate"),
   db, [UserFindOne (UserSchema.ByEmailBirthDate email birthDate)]).
Proof.
  unfold verify_identity. run_handler.
  destruct (decide (valid_date birthDate)); [|reflexivity].
  by destruct (first_match _ _) as [[i u]|].
Qed.

Lemma reset_password_eq userId newPassword salt db :
  reset_password bcrypt_hash userId newPassword salt db =
  (match users db !! userId with
   | None => (mkResponse 404 (Message "Utilizador não encontrado."), db)
   | Some u =>
       (mkResponse 200 (Message "Senha redefinida com sucesso!"),
        mkDb (<[userId := UserSchema.mk (UserSchema.name u) (UserSchema.email u)
                            (bcrypt_hash newPassword salt) (UserSchema.birthDate u)]>
                (users db))
             (events db) (next_oid db))
   end, [UserFindByIdAndUpdate userId]).
Proof.
  unfold reset_password. run_handler. by destruct (users db !! userId).
Qed.

Lemma delete_own_account_eq userId password db :
  delete_own_account bcrypt_compare userId password db =
  match users db !! userId with
  | None =>
      (mkResponse 404 (Message "Utilizador não encontrado."), db,
       [UserFindById userId])
  | Some user =>
      if bcrypt_compare password (UserSchema.password user)
      then
        (mkResponse 200 (Message "Conta apagada com sucesso."),
         mkDb (delete userId (users db))
              (filter (λ kv, EventSchema.userId kv.2 ≠ userId) (events db))
              (next_oid db),
         [UserFindById userId; EventDeleteMany userId; UserFindByIdAndDelete userId])
      else
        (mkResponse 401 (Message "Senha incorreta."), db, [UserFindById userId])
  end.
Proof.
  unfold delete_own_account. run_handler.
  destruct (users db !! userId) as [u|] eqn:Hu; [|done].
  destruct (bcrypt_compare _ _); simpl; [|done].
  by rewrite Hu.
Qed.

Lemma list_events_eq userId db :
  list_events userId db =
  (mkResponse 200
     (EventsBody
        (merge_sort Event.dateTime_asc
           (filter (λ kv, EventSchema.userId kv.2 = userId)
              (map_to_list (events db))))),
   db, [EventFind userId]).
Proof. reflexivity. Qed.

Lemma delete_event_eq id db :
  delete_event id db =
  (match events db !! id with
   | None => (mkResponse 404 (Message "Evento não encontrado."), db)
   | Some _ =>
       (mkResponse 200 (Message "Evento apagado com sucesso."),
        mkDb (users db) (delete id (events db)) (next_oid db))
   end, [EventFindByIdAndDelete id]).
Proof.
  unfold delete_event. run_handler. by destruct (events db !! id).
Qed.

End HandlerEquations.

(** ** The store invariants hold in every state the server reaches *)

Lemma emails_unique_insert_fresh us i u :
  emails_unique us →
  (∀ j v, us !! j = Some v → UserSchema.email v ≠ UserSchema.email u) →
  emails_unique (<[i := u]> us).
Proof.
  intros Huniq Hfresh j k v w Hj Hk Heq.
  apply lookup_insert_Some in Hj as [[<- <-]|[Hne Hj]];
    apply lookup_insert_Some in Hk as [[<- <-]|[Hne' Hk]]; try done.
  - by destruct (Hfresh _ _ Hk).
  - by destruct (Hfresh _ _ Hj).
  - eauto.
Qed.

Lemma emails_unique_update us i u pw :
  emails_unique us → us !! i = Some u →
  emails_unique
    (<[i := UserSchema.mk (UserSchema.name u) (UserSchema.email u) pw
              (UserSchema.birthDate u)]> us).
Proof.
  intros Huniq Hi j k v w Hj Hk Heq.
  apply lookup_insert_Some in Hj as [[<- <-]|[Hne Hj]];
    apply lookup_insert_Some in Hk as [[<- <-]|[Hne' Hk]]; try done; simpl in *.
  - symmetry. eauto.
  - eauto.
  - eauto.
Qed.

Lemma emails_unique_delete us i : emails_unique us → emails_unique (delete i us).
Proof.
  intros Huniq j k v w Hj Hk Heq.
  apply lookup_delete_Some in Hj as [_ Hj]. apply lookup_delete_Some in Hk as [_ Hk].
  eauto.
Qed.

Lemma db_wf_bump db :
  db_wf db → db_wf (mkDb (users db) (events db) (S (next_oid db))).
Proof.
  intros [Hu He Hm]. split; simpl; [| |done].
  - intros i u Hi. specialize (Hu _ _ Hi). lia.
  - intros i e Hi. specialize (He _ _ Hi). lia.
Qed.

Section Invariants.
Variable bcrypt_hash : string → string → string.
Variable bcrypt_compare : string → string → bool.

Lemma register_wf name email password birthDate salt db :
  db_wf db → db_wf (db_after (register bcrypt_hash name email password birthDate salt db)).
Proof.
  intros Hwf. rewrite register_eq.
  destruct (first_match _ _) as [[i v]|] eqn:Hfind; [done|].
  cbv zeta. unfold db_after. simpl.
  destruct (decide (User.validate _ = ∅)) as [Hvalid|Hinvalid]; [|by apply db_wf_bump].
  case_decide; [by apply db_wf_bump|].
  destruct Hwf as [Hu He Hm]. split; simpl.
  - intros i u [[<- <-]|[Hne Hi]]%lookup_insert_Some; [lia|].
    specialize (Hu _ _ Hi). lia.
  - intros i e Hi. specialize (He _ _ Hi). lia.
  - apply emails_unique_insert_fresh; [done|].
    intros j v Hj. simpl.
    by apply (proj1 (first_match_None _ _) Hfind j v Hj).
Qed.

Lemma reset_password_wf userId newPassword salt db :
  db_wf db → db_wf (db_after (reset_password bcrypt_hash userId newPassword salt db)).
Proof.
  intros Hwf. rewrite reset_password_eq. unfold db_after.
  destruct (users db !! userId) as [u|] eqn:Hlook; [|done].
  destruct Hwf as [Hu He Hm]. split; simpl; [| done |].
  - intros i v [[<- <-]|[Hne Hi]]%lookup_insert_Some; eauto.
  - by apply emails_unique_update.
Qed.

Lemma delete_own_account_wf userId password db :
  db_wf db → db_wf (db_after (delete_own_account bcrypt_compare userId password db)).
Proof.
  intros Hwf. rewrite delete_own_account_eq. unfold db_after.
  destruct (users db !! userId) as [u|] eqn:Hlook; [|done].
  destruct (bcrypt_compare _ _); [|done].
  destruct Hwf as [Hu He Hm]. split; simpl.
  - intros i v [_ Hi]%lookup_delete_Some. eauto.
  - intros i e [Hi _]%map_lookup_filter_Some. eauto.
  - by apply emails_unique_delete.
Qed.

Lemma create_event_wf userId eventName venue dateTime db :
  db_wf db → db_wf (db_after (create_event userId eventName venue dateTime db)).
Proof.
  intros Hwf. rewrite create_event_eq. cbv zeta. unfold db_after. simpl.
  destruct (decide (Event.validate _ = ∅)) as [Hvalid|Hinvalid]; [|by apply db_wf_bump].
  case_decide; [by apply db_wf_bump|].
  destruct Hwf as [Hu He Hm]. split; simpl; [| |done].
  - intros i u Hi. specialize (Hu _ _ Hi). lia.
  - intros i e [[<- <-]|[Hne Hi]]%lookup_insert_Some; [lia|].
    specialize (He _ _ Hi). lia.
Qed.

Lemma delete_event_wf id db : db_wf db → db_wf (db_after (delete_event id db)).
Proof.
  intros Hwf. rewrite delete_event_eq. unfold db_after.
  destruct (events db !! id) as [e|] eqn:Hlook; [|done].
  destruct Hwf as [Hu He Hm]. split; simpl; [done| |done].
  intros i e' [_ Hi]%lookup_delete_Some. eauto.
Qed.

Lemma handle_wf r db :
  db_wf db → db_wf (db_after (handle bcrypt_hash bcrypt_compare r db)).
Proof.
  destruct r; simpl.
  - apply register_wf.
  - by rewrite login_eq.
  - by rewrite verify_identity_eq.
  - apply reset_password_wf.
  - apply delete_own_account_wf.
  - apply create_event_wf.
  - by rewrite list_events_eq.
  - apply delete_event_wf.
Qed.

Lemma empty_db_wf : db_wf empty_db.
Proof. split; simpl; intros ?*; by rewrite lookup_empty. Qed.

Lemma reachable_wf db : reachable bcrypt_hash bcrypt_compare db → db_wf db.
Proof.
  induction 1 as [|r db _ IH]; [apply empty_db_wf | by apply handle_wf].
Qed.

Lemma run_reachable rs db :
  reachable bcrypt_hash bcrypt_compare db →
  reachable bcrypt_hash bcrypt_compare (run bcrypt_hash bcrypt_compare rs db).
Proof.
  revert db. induction rs as [|r rs IH]; intros db Hdb; simpl; [done|].
  apply IH. by constructor.
Qed.

End Invariants.

(** ** The sample states *)

Lemma ana_registered_eq :
  ana_registered =
  mkDb {[ 0%nat := UserSchema.mk "Ana" "ana@agenda.pt" "segredo" 631152000000 ]}
       ∅ 1%nat.
Proof. reflexivity. Qed.

Lemma ana_registered_reachable : reachable plain_hash plain_compare ana_registered.
Proof. unfold ana_registered. apply (reachable_handle _ _ (Register _ _ _ _ _)). constructor. Qed.

Lemma ana_with_events_reachable : reachable plain_hash plain_compare ana_with_events.
Proof. apply run_reachable, ana_registered_reachable. Qed.

Lemma plain_compare_hash p s : plain_compare p (plain_hash p s) = true.
Proof. unfold plain_compare, plain_hash. by apply bool_decide_eq_true. Qed.

(** ** Login *)

Section Login.
Variable bcrypt_compare : string → string → bool.

(** With the unique index on [email], the user [findOne({ email })]
    returns is the user that has the email. *)
Lemma first_match_email (us : gmap nat UserSchema.doc) email i u :
  emails_unique us →
  us !! i = Some u → UserSchema.email u = email →
  first_match (UserSchema.matches (UserSchema.ByEmail email)) us = Some (i, u).
Proof.
  intros Huniq Hi Hemail. apply first_match_unique; [done..|].
  intros j v Hj Hv. apply (Huniq j i v u); [done..|]. by rewrite Hemail.
Qed.

Lemma login_failure_response db email password :
  login_failure bcrypt_compare db email password →
  login bcrypt_compare email password db =
  (invalid_credentials, db, [UserFindOne (UserSchema.ByEmail email)]).
Proof.
  intros Hfail. rewrite login_eq. destruct Hfail as [Hnone|i u Hfind Hcmp].
  - assert (first_match (UserSchema.matches (UserSchema.ByEmail email)) (users db)
            = None) as ->; [|done].
    apply first_match_None. intros i u Hi Hm. by apply (Hnone i u).
  - by rewrite Hfind, Hcmp.
Qed.

(** The converse: [login] answers 401 for no other reason. *)
Lemma login_invalid_credentials_inv db email password :
  response (login bcrypt_compare email password db) = invalid_credentials →
  login_failure bcrypt_compare db email password.
Proof.
  rewrite login_eq. unfold response. simpl.
  destruct (first_match _ _) as [[i u]|] eqn:Hfind.
  - destruct (bcrypt_compare _ _) eqn:Hcmp; [done|]. intros _. by eright.
  - intros _. left. intros i u Hi Hm.
    by apply (proj1 (first_match_None _ _) Hfind i u).
Qed.

(** C2. Whatever the store, a login turned down because no user has the
    email and a login turned down because the password does not verify
    against the stored hash get the same response: status 401 with the
    one message of [invalid_credentials]; and neither changes the store. *)
Theorem login_failures_indistinguishable
    db1 email1 password1 db2 email2 password2 :
  login_failure bcrypt_compare db1 email1 password1 →
  login_failure bcrypt_compare db2 email2 password2 →
  response (login bcrypt_compare email1 password1 db1) = invalid_credentials ∧
  response (login bcrypt_compare email2 password2 db2)
    = response (login bcrypt_compare email1 password1 db1) ∧
  db_after (login bcrypt_compare email1 password1 db1) = db1 ∧
  db_after (login bcrypt_compare email2 password2 db2) = db2.
Proof.
  intros H1 H2.
  rewrite (login_failure_response _ _ _ H1), (login_failure_response _ _ _ H2).
  done.
Qed.

End Login.

Lemma login_failures_indistinguishable_witness :
  response (login plain_compare "rui@agenda.pt" "segredo" ana_registered)
    = invalid_credentials ∧
  response (login plain_compare "ana@agenda.pt" "errada" ana_registered)
    = response (login plain_compare "rui@agenda.pt" "segredo" ana_registered).
Proof.
  assert (login_failure plain_compare ana_registered "rui@agenda.pt" "segredo") as H1.
  { left. rewrite ana_registered_eq. simpl.
    intros i u [<- <-]%lookup_singleton_Some. done. }
  assert (login_failure plain_compare ana_registered "ana@agenda.pt" "errada") as H2.
  { by eright. }
  destruct (login_failures_indistinguishable plain_compare _ _ _ _ _ _ H1 H2)
    as (Ha & Hb & _).
  exact (conj Ha Hb).
Defined.

(** ** Identity check *)

(** C6, amended.  For a birth date that is a valid Date,
    [verify_identity] answers 200 with a user id exactly when one user
    record carries both the email and the birth date of the request; the
    id it returns is the [_id] of such a record; in every other case
    (the email is unknown, or the record with that email has another
    birth date) it answers 404.  For a birth date that is no valid Date
    the query does not cast and the answer is 500 with the cast error,
    whatever the store holds.  The store is left as it was. *)
Theorem verify_identity_both_fields email birthDate db :
  (valid_date birthDate →
   ((∃ id, response (verify_identity email birthDate db)
             = mkResponse 200 (UserIdBody id)) ↔
    (∃ i u, users db !! i = Some u ∧
            UserSchema.email u = email ∧ UserSchema.birthDate u = birthDate)) ∧
   (∀ id, response (verify_identity email birthDate db)
            = mkResponse 200 (UserIdBody id) →
          ∃ u, users db !! id = Some u ∧
               UserSchema.email u = email ∧ UserSchema.birthDate u = birthDate) ∧
   ((∀ i u, users db !! i = Some u →
            ¬ (UserSchema.email u = email ∧ UserSchema.birthDate u = birthDate)) →
    response (verify_identity email birthDate db)
      = mkResponse 404 (Message "Dados não encontrados."))) ∧
  (¬ valid_date birthDate →
   response (verify_identity email birthDate db)
     = server_error "Erro no servidor" (CastError "birthDate")) ∧
  db_after (verify_identity email birthDate db) = db.
Proof.
  rewrite verify_identity_eq. unfold response, db_after. cbn [fst snd].
  split; [|split; [|done]].
  - intros Hvalid. destruct (decide (valid_date birthDate)) as [_|?]; [|done].
    destruct (first_match _ _) as [[i u]|] eqn:Hfind.
    + destruct (first_match_Some _ _ _ _ Hfind) as [Hi [He Hb]].
      split; [|split].
      * split; eauto 6.
      * intros id [= <-]. eauto.
      * intros Hnone. by destruct (Hnone i u Hi).
    + pose proof (proj1 (first_match_None _ _) Hfind) as Hnone.
      split; [|split; [done|done]]. split.
      * by intros [id ?].
      * intros (i & u & Hi & He & Hb). by destruct (Hnone i u Hi).
  - intros Hinvalid. by destruct (decide (valid_date birthDate)).
Qed.

(** C6 as first stated fails for a birth date that is no valid Date: no
    record matches, and the answer is the 500 of the cast error, not the
    404. *)
Lemma verify_identity_invalid_date :
  let r := verify_identity "ana@agenda.pt" 8640000000000001 ana_registered in
  (∀ i u, users ana_registered !! i = Some u →
          ¬ (UserSchema.email u = "ana@agenda.pt" ∧
             UserSchema.birthDate u = 8640000000000001)) ∧
  response r = server_error "Erro no servidor" (CastError "birthDate") ∧
  response r ≠ mkResponse 404 (Message "Dados não encontrados.").
Proof.
  cbv zeta. split; [|split; [reflexivity|discriminate]].
  rewrite ana_registered_eq. simpl.
  intros i u [<- <-]%lookup_singleton_Some [_ Hb]. discriminate.
Qed.

(** The example of the specification: the right email with another birth
    date is not found. *)
Example verify_identity_wrong_birthDate :
  response (verify_identity "ana@agenda.pt" 631152000000 ana_registered)
    = mkResponse 200 (UserIdBody 0%nat) ∧
  response (verify_identity "ana@agenda.pt" 631238400000 ana_registered)
    = mkResponse 404 (Message "Dados não encontrados.").
Proof. split; reflexivity. Qed.

(** ** Password reset *)

Section ResetPassword.
Variable bcrypt_hash : string → string → string.
Variable bcrypt_compare : string → string → bool.

(** C10. A reset for a user that exists answers 200 and rewrites the
    [password] field of that one record with the new hash: the record
    keeps its name, email and birth date, every other user record is
    what it was, and so are the events and the id counter. *)
Theorem reset_password_frame userId newPassword salt db u :
  users db !! userId = Some u →
  let r := reset_password bcrypt_hash userId newPassword salt db in
  response r = mkResponse 200 (Message "Senha redefinida com sucesso!") ∧
  users (db_after r) !! userId
    = Some (UserSchema.mk (UserSchema.name u) (UserSchema.email u)
              (bcrypt_hash newPassword salt) (UserSchema.birthDate u)) ∧
  (∀ j, j ≠ userId → users (db_after r) !! j = users db !! j) ∧
  events (db_after r) = events db ∧
  next_oid (db_after r) = next_oid db.
Proof.
  intros Hu r. subst r. rewrite reset_password_eq, Hu.
  unfold response, db_after. simpl. repeat split.
  - apply lookup_insert_eq.
  - intros j Hj. by apply lookup_insert_ne.
Qed.

End ResetPassword.

Lemma reset_password_frame_witness :
  let r := reset_password plain_hash 0%nat "nova" "s" ana_with_events in
  users (db_after r) !! 0%nat
    = Some (UserSchema.mk "Ana" "ana@agenda.pt" "nova" 631152000000) ∧
  events (db_after r) = events ana_with_events.
Proof.
  destruct (reset_password_frame plain_hash 0%nat "nova" "s" ana_with_events
              (UserSchema.mk "Ana" "ana@agenda.pt" "segredo" 631152000000)
              eq_refl)
    as (_ & Hu & _ & He & _).
  exact (conj Hu He).
Defined.

(** ** Listing events *)

#[local] Instance dateTime_asc_total : Total Event.dateTime_asc.
Proof. intros a b. unfold Event.dateTime_asc. lia. Qed.

#[local] Instance dateTime_asc_trans : Transitive Event.dateTime_asc.
Proof. intros a b c. unfold Event.dateTime_asc. lia. Qed.

(** The events [Event.find({ userId })] selects. *)
Lemma owner_events_elem_of owner db i e :
  (i, e) ∈ filter (λ kv : nat * EventSchema.doc, EventSchema.userId kv.2 = owner)
             (map_to_list (events db))
  ↔ events db !! i = Some e ∧ EventSchema.userId e = owner.
Proof. rewrite list_elem_of_filter, elem_of_map_to_list. simpl. tauto. Qed.

Lemma list_events_spec owner db :
  ∃ l, list_events owner db = (mkResponse 200 (EventsBody l), db, [EventFind owner]) ∧
    (∀ i e, (i, e) ∈ l ↔ events db !! i = Some e ∧ EventSchema.userId e = owner) ∧
    NoDup l ∧
    StronglySorted Event.dateTime_asc l.
Proof.
  eexists. split; [apply list_events_eq|]. split; [|split].
  - intros i e. rewrite merge_sort_Permutation. apply owner_events_elem_of.
  - rewrite merge_sort_Permutation. apply NoDup_filter, NoDup_map_to_list.
  - apply StronglySorted_merge_sort; apply _.
Qed.

(** C9. [list_events] answers 200 with a list that holds exactly the
    events whose [userId] is the one asked for, each once, in ascending
    order of [dateTime]; the store is left as it was. *)
Theorem list_events_sorted_by_dateTime owner db :
  ∃ l, response (list_events owner db) = mkResponse 200 (EventsBody l) ∧
    db_after (list_events owner db) = db ∧
    (∀ i e, (i, e) ∈ l ↔ events db !! i = Some e ∧ EventSchema.userId e = owner) ∧
    NoDup l ∧
    StronglySorted Event.dateTime_asc l.
Proof.
  destruct (list_events_spec owner db) as (l & Heq & Hin & Hnd & Hsorted).
  exists l. by rewrite Heq.
Qed.

(** The example of the specification: the event at the later time was
    created first, and the earlier one is listed first. *)
Example list_events_T1_T2 :
  response (list_events 0%nat ana_with_events) =
  mkResponse 200
    (EventsBody
       [(2%nat, EventSchema.mk 0%nat "Jantar" "Casa" 1764547200000);
        (1%nat, EventSchema.mk 0%nat "Concerto" "Coliseu" 1767225600000)]).
Proof. vm_compute. reflexivity. Qed.

(** ** Deleting one's account *)

Section DeleteOwnAccount.
Variable bcrypt_compare : string → string → bool.

(** C5. With a password that does not verify against the stored hash
    of the user, [delete_own_account] answers 401 "Senha incorreta."
    after the one lookup, and the store is exactly what it was: no user
    and no event is deleted. *)
Theorem delete_own_account_wrong_password userId password db user :
  users db !! userId = Some user →
  bcrypt_compare password (UserSchema.password user) = false →
  delete_own_account bcrypt_compare userId password db =
  (mkResponse 401 (Message "Senha incorreta."), db, [UserFindById userId]).
Proof.
  intros Hu Hcmp. by rewrite delete_own_account_eq, Hu, Hcmp.
Qed.

(** C4. With a password that verifies against the stored hash of the
    user, [delete_own_account] answers 200; the store calls it makes are,
    in this order, the lookup of the user, [Event.deleteMany] for the
    user's events, and only then [User.findByIdAndDelete]; afterwards the
    user record is gone, the events left are those of the other owners,
    the other users are untouched, and listing the events of the deleted
    user gives the empty list.  In the store between the two deletions
    the user is still there and none of the user's events is. *)
Theorem delete_own_account_cascade userId password db user :
  users db !! userId = Some user →
  bcrypt_compare password (UserSchema.password user) = true →
  let r := delete_own_account bcrypt_compare userId password db in
  response r = mkResponse 200 (Message "Conta apagada com sucesso.") ∧
  calls r
    = [UserFindById userId; EventDeleteMany userId; UserFindByIdAndDelete userId] ∧
  users (db_after r) = delete userId (users db) ∧
  users (db_after r) !! userId = None ∧
  (∀ i e, events (db_after r) !! i = Some e ↔
          events db !! i = Some e ∧ EventSchema.userId e ≠ userId) ∧
  response (list_events userId (db_after r)) = mkResponse 200 (EventsBody []) ∧
  (∃ db1, Event.deleteMany userId db = (Done (), db1, [EventDeleteMany userId]) ∧
          users db1 !! userId = Some user ∧
          (∀ i e, events db1 !! i = Some e → EventSchema.userId e ≠ userId) ∧
          User.findByIdAndDelete userId db1
            = (Done (Some user), db_after r, [UserFindByIdAndDelete userId])).
Proof.
  intros Hu Hcmp r. subst r. rewrite delete_own_account_eq, Hu, Hcmp.
  unfold response, calls, db_after. cbn [fst snd users events].
  assert (∀ i e,
    filter (λ kv : nat * EventSchema.doc, EventSchema.userId kv.2 ≠ userId)
      (events db) !! i = Some e
    ↔ events db !! i = Some e ∧ EventSchema.userId e ≠ userId) as Hleft.
  { intros i e. by rewrite map_lookup_filter_Some. }
  do 3 (split; [done|]). split; [apply lookup_delete_eq|]. split; [apply Hleft|].
  - destruct (list_events_spec userId
      (mkDb (delete userId (users db))
         (filter (λ kv : nat * EventSchema.doc, EventSchema.userId kv.2 ≠ userId)
            (events db))
         (next_oid db))) as (l & -> & Hin & _).
    cbn [fst]. split.
    + do 2 f_equal. apply elem_of_nil_inv. intros [i e] Hie.
      apply Hin in Hie as [Hie Howner]. simpl in Hie.
      apply Hleft in Hie as [_ Hne]. done.
    + eexists. split; [reflexivity|]. simpl. split; [done|]. split.
      * intros i e Hie. by apply Hleft in Hie as [_ Hne].
      * unfold User.findByIdAndDelete, call. simpl. by rewrite Hu.
Qed.

End DeleteOwnAccount.

Lemma delete_own_account_wrong_password_witness :
  delete_own_account plain_compare 0%nat "errada" ana_with_events =
  (mkResponse 401 (Message "Senha incorreta."), ana_with_events, [UserFindById 0%nat]).
Proof.
  apply (delete_own_account_wrong_password plain_compare 0%nat "errada"
           ana_with_events
           (UserSchema.mk "Ana" "ana@agenda.pt" "segredo" 631152000000));
    reflexivity.
Defined.

Lemma delete_own_account_cascade_witness :
  let r := delete_own_account plain_compare 0%nat "segredo" ana_with_events in
  calls r = [UserFindById 0%nat; EventDeleteMany 0%nat; UserFindByIdAndDelete 0%nat] ∧
  users (db_after r) !! 0%nat = None ∧
  response (list_events 0%nat (db_after r)) = mkResponse 200 (EventsBody []).
Proof.
  destruct (delete_own_account_cascade plain_compare 0%nat "segredo"
              ana_with_events
              (UserSchema.mk "Ana" "ana@agenda.pt" "segredo" 631152000000)
              eq_refl eq_refl)
    as (_ & Hcalls & _ & Hgone & _ & Hlist & _).
  exact (conj Hcalls (conj Hgone Hlist)).
Defined.

(** ** Login after a password reset *)

Section ResetThenLogin.
Variable bcrypt_hash : string → string → string.
Variable bcrypt_compare : string → string → bool.

(** After a reset, [login] with the user's email is decided by comparing
    the password sent with the new hash. *)
Lemma login_after_reset userId newPassword salt db u password :
  emails_unique (users db) →
  users db !! userId = Some u →
  response
    (login bcrypt_compare (UserSchema.email u) password
       (db_after (reset_password bcrypt_hash userId newPassword salt db)))
  = if bcrypt_compare password (bcrypt_hash newPassword salt)
    then mkResponse 200 (LoginBody userId (UserSchema.name u) (UserSchema.email u))
    else invalid_credentials.
Proof.
  intros Huniq Hu. rewrite reset_password_eq, Hu. unfold db_after. cbn [fst snd].
  rewrite login_eq. unfold response. cbn [fst users].
  rewrite (first_match_email _ _ userId
             (UserSchema.mk (UserSchema.name u) (UserSchema.email u)
                (bcrypt_hash newPassword salt) (UserSchema.birthDate u))).
  - done.
  - by apply emails_unique_update.
  - apply lookup_insert_eq.
  - done.
Qed.

(** C3, amended.  Take a store with unique emails, an old and a new
    password, and the salt of the reset, such that [bcrypt.compare]
    accepts the new password against the hash the reset stores and does
    not accept the old one against it.  A reset for an absent id answers
    404 and changes nothing.  A reset for an existing user answers 200,
    after which [login] with the user's email is turned down with
    [invalid_credentials] for the old password and succeeds, as that
    user, for the new one. *)
Theorem reset_password_changes_login userId oldPassword newPassword salt db :
  emails_unique (users db) →
  bcrypt_compare newPassword (bcrypt_hash newPassword salt) = true →
  bcrypt_compare oldPassword (bcrypt_hash newPassword salt) = false →
  let r := reset_password bcrypt_hash userId newPassword salt db in
  (users db !! userId = None →
   r = (mkResponse 404 (Message "Utilizador não encontrado."), db,
        [UserFindByIdAndUpdate userId])) ∧
  (∀ u, users db !! userId = Some u →
     response r = mkResponse 200 (Message "Senha redefinida com sucesso!") ∧
     response (login bcrypt_compare (UserSchema.email u) oldPassword (db_after r))
       = invalid_credentials ∧
     response (login bcrypt_compare (UserSchema.email u) newPassword (db_after r))
       = mkResponse 200
           (LoginBody userId (UserSchema.name u) (UserSchema.email u))).
Proof.
  intros Huniq Hnew Hold r. subst r. split.
  - intros Hnone. by rewrite reset_password_eq, Hnone.
  - intros u Hu. split; [by rewrite reset_password_eq, Hu|]. split.
    + by rewrite login_after_reset, Hold.
    + by rewrite login_after_reset, Hnew.
Qed.

End ResetThenLogin.

Lemma reset_password_changes_login_witness :
  let r := reset_password plain_hash 0%nat "nova" "s" ana_registered in
  response r = mkResponse 200 (Message "Senha redefinida com sucesso!") ∧
  response (login plain_compare "ana@agenda.pt" "segredo" (db_after r))
    = invalid_credentials ∧
  response (login plain_compare "ana@agenda.pt" "nova" (db_after r))
    = mkResponse 200 (LoginBody 0%nat "Ana" "ana@agenda.pt").
Proof.
  destruct (reset_password_changes_login plain_hash plain_compare 0%nat
              "segredo" "nova" "s" ana_registered
              (wf_emails _ (reachable_wf _ _ _ ana_registered_reachable))
              eq_refl eq_refl)
    as [_ Hsome].
  exact (Hsome (UserSchema.mk "Ana" "ana@agenda.pt" "segredo" 631152000000)
           eq_refl).
Defined.

(** C3 as first stated fails for an old password that the hasher accepts
    against the hash of the new one.  bcrypt reads the first 72 bytes of
    a password and no more; the scheme of this example keeps that one
    trait (the hash is the first 72 bytes, comparison is equality on
    them).  The user registers with a password of 77 bytes, resets to
    another password with the same first 72 bytes, and the old password
    still logs in.  By [login_after_reset] this is so for every scheme
    and every old password that [compare] accepts against the new
    hash. *)
Lemma reset_password_long_old_password_still_logs_in :
  let bcrypt_hash := λ data salt : string, String.substring 0 72 data in
  let bcrypt_compare := λ data encrypted : string,
    bool_decide (String.substring 0 72 data = encrypted) in
  let prefix :=
    "aaaaaaaaaaaaaaaaaaaaaaaaaaaaaaaaaaaaaaaaaaaaaaaaaaaaaaaaaaaaaaaaaaaaaaaa" in
  let oldPassword := String.append prefix "velha" in
  let newPassword := String.append prefix "nova" in
  let db := db_after (register bcrypt_hash "Ana" "ana@agenda.pt" oldPassword
                        631152000000 "s" empty_db) in
  let r := reset_password bcrypt_hash 0%nat newPassword "t" db in
  String.length prefix = 72%nat ∧
  oldPassword ≠ newPassword ∧
  response (login bcrypt_compare "ana@agenda.pt" oldPassword db)
    = mkResponse 200 (LoginBody 0%nat "Ana" "ana@agenda.pt") ∧
  response r = mkResponse 200 (Message "Senha redefinida com sucesso!") ∧
  response (login bcrypt_compare "ana@agenda.pt" oldPassword (db_after r))
    = mkResponse 200 (LoginBody 0%nat "Ana" "ana@agenda.pt") ∧
  response (login bcrypt_compare "ana@agenda.pt" oldPassword (db_after r))
    ≠ invalid_credentials.
Proof.
  cbv zeta. split; [reflexivity|]. split; [discriminate|].
  split; [vm_compute; reflexivity|]. split; [vm_compute; reflexivity|].
  split; [vm_compute; reflexivity|]. vm_compute. discriminate.
Qed.

(** ** Validation *)

Lemma elem_of_required p path v : p ∈ required path v ↔ p = path ∧ v = "".
Proof.
  unfold required. case_decide.
  - rewrite elem_of_singleton. tauto.
  - rewrite elem_of_empty. tauto.
Qed.

Lemma elem_of_required_date p path t :
  p ∈ required_date path t ↔ p = path ∧ ¬ valid_date t.
Proof.
  unfold required_date. case_decide.
  - rewrite elem_of_empty. tauto.
  - rewrite elem_of_singleton. tauto.
Qed.

(** The paths of a user document that fail validation. *)
Lemma elem_of_user_validate p u :
  p ∈ User.validate u ↔
    (p = "name" ∧ UserSchema.name u = "") ∨
    (p = "email" ∧ UserSchema.email u = "") ∨
    (p = "password" ∧ UserSchema.password u = "") ∨
    (p = "birthDate" ∧ ¬ valid_date (UserSchema.birthDate u)).
Proof.
  unfold User.validate.
  rewrite !elem_of_union, !elem_of_required, elem_of_required_date. tauto.
Qed.

(** The paths of an event document that fail validation. *)
Lemma elem_of_event_validate p e :
  p ∈ Event.validate e ↔
    (p = "eventName" ∧ EventSchema.eventName e = "") ∨
    (p = "venue" ∧ EventSchema.venue e = "") ∨
    (p = "dateTime" ∧ ¬ valid_date (EventSchema.dateTime e)).
Proof.
  unfold Event.validate.
  rewrite !elem_of_union, !elem_of_required, elem_of_required_date. tauto.
Qed.

Lemma user_validate_empty u :
  User.validate u = ∅ ↔
    UserSchema.name u ≠ "" ∧ UserSchema.email u ≠ "" ∧
    UserSchema.password u ≠ "" ∧ valid_date (UserSchema.birthDate u).
Proof.
  split.
  - intros Hempty.
    assert (∀ p, p ∉ User.validate u) as Hno
      by (intros p; rewrite Hempty; apply not_elem_of_empty).
    split; [|split; [|split]].
    + intros Hn. apply (Hno "name"), elem_of_user_validate. tauto.
    + intros He. apply (Hno "email"), elem_of_user_validate. tauto.
    + intros Hp. apply (Hno "password"), elem_of_user_validate. tauto.
    + destruct (decide (valid_date (UserSchema.birthDate u))) as [|Hd]; [done|].
      destruct (Hno "birthDate"). apply elem_of_user_validate. tauto.
  - intros (Hn & He & Hp & Hd). apply elem_of_equiv_empty_L.
    intros p. rewrite elem_of_user_validate. tauto.
Qed.

Lemma event_validate_empty e :
  Event.validate e = ∅ ↔
    EventSchema.eventName e ≠ "" ∧ EventSchema.venue e ≠ "" ∧
    valid_date (EventSchema.dateTime e).
Proof.
  split.
  - intros Hempty.
    assert (∀ p, p ∉ Event.validate e) as Hno
      by (intros p; rewrite Hempty; apply not_elem_of_empty).
    split; [|split].
    + intros Hn. apply (Hno "eventName"), elem_of_event_validate. tauto.
    + intros Hv. apply (Hno "venue"), elem_of_event_validate. tauto.
    + destruct (decide (valid_date (EventSchema.dateTime e))) as [|Hd]; [done|].
      destruct (Hno "dateTime"). apply elem_of_event_validate. tauto.
  - intros (Hn & Hv & Hd). apply elem_of_equiv_empty_L.
    intros p. rewrite elem_of_event_validate. tauto.
Qed.

(** ** Registration *)

Section Register.
Variable bcrypt_hash : string → string → string.

(** C7, amended.  When a user with the email exists, [register] answers
    400 "Email já está em uso." whatever the other fields are, and the
    store is what it was.  When no user has the email, the store is well
    formed, the name, the email and the hash of the password are not
    empty and the birth date is a valid Date (the four required paths of
    the schema), it stores under a fresh id the record that holds the
    hash in place of the password and answers 201 with a fixed message,
    the same for every password and salt.  When no user has the email
    and one of the name, the email and the hash is empty or the birth
    date is no valid Date, it answers 500 with the validation error of
    exactly the paths that failed, and stores no record. *)
Theorem register_email_in_use_or_created name email password birthDate salt db :
  let r := register bcrypt_hash name email password birthDate salt db in
  let u := UserSchema.mk name email (bcrypt_hash password salt) birthDate in
  ((∃ i v, users db !! i = Some v ∧ UserSchema.email v = email) →
   r = (mkResponse 400 (Message "Email já está em uso."), db,
        [UserFindOne (UserSchema.ByEmail email)])) ∧
  ((∀ i v, users db !! i = Some v → UserSchema.email v ≠ email) →
   db_wf db →
   name ≠ "" → email ≠ "" → bcrypt_hash password salt ≠ "" →
   valid_date birthDate →
   users db !! next_oid db = None ∧
   r = (mkResponse 201 (Message "Utilizador criado com sucesso!"),
        mkDb (<[next_oid db := u]> (users db)) (events db) (S (next_oid db)),
        [UserFindOne (UserSchema.ByEmail email); UserSave (next_oid db)])) ∧
  ((∀ i v, users db !! i = Some v → UserSchema.email v ≠ email) →
   name = "" ∨ email = "" ∨ bcrypt_hash password salt = "" ∨ ¬ valid_date birthDate →
   (∃ paths,
      response r = server_error "Erro no servidor" (ValidationError paths) ∧
      ∀ p, p ∈ paths ↔
           (p = "name" ∧ name = "") ∨
           (p = "email" ∧ email = "") ∨
           (p = "password" ∧ bcrypt_hash password salt = "") ∨
           (p = "birthDate" ∧ ¬ valid_date birthDate)) ∧
   users (db_after r) = users db ∧ events (db_after r) = events db).
Proof.
  intros r u. subst r. rewrite register_eq. fold u. split; [|split].
  - intros (i & v & Hi & Hv).
    destruct (first_match_is_Some (UserSchema.matches (UserSchema.ByEmail email))
                (users db) i v Hi Hv) as [[j w] ->].
    done.
  - intros Hnone Hwf Hn He Hp Hd.
    assert (users db !! next_oid db = None) as Hfresh.
    { destruct (users db !! next_oid db) as [v|] eqn:Hv; [|done].
      pose proof (wf_user_ids _ Hwf _ _ Hv). lia. }
    split; [done|].
    assert (first_match (UserSchema.matches (UserSchema.ByEmail email)) (users db)
            = None) as ->.
    { apply first_match_None. intros i v Hi Hv. by apply (Hnone i v). }
    cbv zeta.
    destruct (decide (User.validate u = ∅)) as [_|Hbad];
      [|destruct Hbad; by apply user_validate_empty].
    case_decide as Hdup; [|done].
    rewrite Hfresh in Hdup. by destruct Hdup.
  - intros Hnone Hfail.
    assert (first_match (UserSchema.matches (UserSchema.ByEmail email)) (users db)
            = None) as ->.
    { apply first_match_None. intros i v Hi Hv. by apply (Hnone i v). }
    cbv zeta. unfold response, db_after.
    destruct (decide (User.validate u = ∅)) as [Hok|Hbad].
    + apply user_validate_empty in Hok as (Hn & He & Hp & Hd). simpl in *. tauto.
    + cbn [fst snd users events]. split; [|done].
      exists (User.validate u). split; [done|].
      intros p. by rewrite elem_of_user_validate.
Qed.

End Register.

Lemma register_email_in_use_or_created_witness :
  register plain_hash "Rui" "rui@agenda.pt" "senha" 662688000000 "s" ana_registered
  = (mkResponse 201 (Message "Utilizador criado com sucesso!"),
     mkDb (<[1%nat := UserSchema.mk "Rui" "rui@agenda.pt" "senha" 662688000000]>
             (users ana_registered))
          (events ana_registered) 2%nat,
     [UserFindOne (UserSchema.ByEmail "rui@agenda.pt"); UserSave 1%nat]) ∧
  register plain_hash "Outra Ana" "ana@agenda.pt" "senha" 662688000000 "s"
    ana_registered
  = (mkResponse 400 (Message "Email já está em uso."), ana_registered,
     [UserFindOne (UserSchema.ByEmail "ana@agenda.pt")]).
Proof.
  split.
  - apply (register_email_in_use_or_created plain_hash "Rui" "rui@agenda.pt"
             "senha" 662688000000 "s" ana_registered).
    + rewrite ana_registered_eq. simpl.
      intros i v [<- <-]%lookup_singleton_Some. discriminate.
    + exact (reachable_wf _ _ _ ana_registered_reachable).
    + discriminate.
    + discriminate.
    + discriminate.
    + unfold valid_date. lia.
  - apply (register_email_in_use_or_created plain_hash "Outra Ana" "ana@agenda.pt"
             "senha" 662688000000 "s" ana_registered).
    exists 0%nat, (UserSchema.mk "Ana" "ana@agenda.pt" "segredo" 631152000000).
    split; reflexivity.
Defined.

(** C7 as first stated fails when a required field is empty: no user has
    the email, and yet no record is created. *)
Lemma register_empty_name_creates_nothing :
  let r := register plain_hash "" "rui@agenda.pt" "senha" 662688000000 "s"
             ana_registered in
  (∀ i v, users ana_registered !! i = Some v →
          UserSchema.email v ≠ "rui@agenda.pt") ∧
  response r = server_error "Erro no servidor" (ValidationError {[ "name" ]}) ∧
  users (db_after r) = users ana_registered.
Proof.
  cbv zeta. split; [|split; reflexivity].
  rewrite ana_registered_eq. simpl.
  intros i v [<- <-]%lookup_singleton_Some. discriminate.
Qed.

(** ** Events and their owners *)

(** A [userId] refers to one user when a user has that id, and to none
    otherwise: ids are keys. *)
Lemma key_count {A} (m : gmap nat A) k :
  length (filter (λ kv : nat * A, kv.1 = k) (map_to_list m))
  = match m !! k with Some _ => 1%nat | None => 0%nat end.
Proof.
  destruct (m !! k) as [x|] eqn:Hk.
  - assert (filter (λ kv : nat * A, kv.1 = k) (map_to_list m) ≡ₚ [(k, x)]) as ->;
      [|done].
    apply NoDup_Permutation.
    + apply NoDup_filter, NoDup_map_to_list.
    + apply NoDup_singleton.
    + intros [j y]. rewrite list_elem_of_filter, elem_of_map_to_list,
        list_elem_of_singleton. simpl. split.
      * intros [-> Hj]. congruence.
      * intros [= -> ->]. done.
  - assert (filter (λ kv : nat * A, kv.1 = k) (map_to_list m) = []) as ->; [|done].
    apply elem_of_nil_inv. intros [j y].
    rewrite list_elem_of_filter, elem_of_map_to_list. simpl.
    intros [-> Hj]. congruence.
Qed.

Lemma owner_count_le_1 db e : (owner_count db e ≤ 1)%nat.
Proof. unfold owner_count. rewrite key_count. destruct (_ !! _); lia. Qed.

Lemma owner_count_1 db e :
  owner_count db e = 1%nat ↔ is_Some (users db !! EventSchema.userId e).
Proof.
  unfold owner_count. rewrite key_count.
  destruct (_ !! _); split; done.
Qed.

Section Owners.
Variable bcrypt_hash : string → string → string.
Variable bcrypt_compare : string → string → bool.

Lemma handle_owners_exist r db :
  owner_known r db → owners_exist db →
  owners_exist (db_after (handle bcrypt_hash bcrypt_compare r db)).
Proof.
  unfold owners_exist. intros Hknown Hown. destruct r; simpl in *.
  - rewrite register_eq. destruct (first_match _ _) as [[j v]|]; [done|].
    cbv zeta. unfold db_after. cbn [fst snd].
    destruct (decide (User.validate _ = ∅)) as [Hvalid|Hinvalid]; [|done]. case_decide; [done|].
    intros i e Hi. cbn [fst snd users events] in *.
    rewrite lookup_insert_is_Some. destruct (Hown i e Hi) as [w Hw].
    destruct (decide (next_oid db = EventSchema.userId e)); [by left|].
    right. split; [done|]. by eexists.
  - by rewrite login_eq.
  - by rewrite verify_identity_eq.
  - rewrite reset_password_eq. unfold db_after.
    destruct (users db !! userId) as [u|] eqn:Hu; [|done].
    intros i e Hi. cbn [fst snd users events] in *.
    rewrite lookup_insert_is_Some.
    destruct (decide (userId = EventSchema.userId e)); [by left|].
    right. split; [done|]. by apply (Hown i e).
  - rewrite delete_own_account_eq. unfold db_after.
    destruct (users db !! id) as [u|] eqn:Hu; [|done].
    destruct (bcrypt_compare _ _); [|done].
    intros i e Hi. cbn [fst snd users events] in *.
    apply map_lookup_filter_Some in Hi as [Hi Hne]. simpl in Hne.
    rewrite lookup_delete_ne by done. by apply (Hown i e).
  - rewrite create_event_eq. cbv zeta. unfold db_after. cbn [fst snd].
    destruct (decide (Event.validate _ = ∅)) as [Hvalid|Hinvalid]; [|done]. case_decide; [done|].
    intros i e Hi. cbn [fst snd users events] in *.
    apply lookup_insert_Some in Hi as [[_ <-]|[_ Hi]]; [done|].
    by apply (Hown i e).
  - by rewrite list_events_eq.
  - rewrite delete_event_eq. unfold db_after.
    destruct (events db !! id) as [e0|] eqn:He0; [|done].
    intros i e Hi. cbn [fst snd users events] in *.
    apply lookup_delete_Some in Hi as [_ Hi]. by apply (Hown i e).
Qed.

Lemma reachable_owned_owners_exist db :
  reachable_owned bcrypt_hash bcrypt_compare db → owners_exist db.
Proof.
  induction 1 as [|r db _ IH Hknown].
  - intros i e Hi. simpl in Hi. by rewrite lookup_empty in Hi.
  - by apply handle_owners_exist.
Qed.

(** C8, amended.  In every state the server reaches by serving requests
    in which each [CreateEvent] names a user that exists when it is
    served, the [userId] of every event is the id of exactly one user. *)
Theorem events_have_one_owner db i e :
  reachable_owned bcrypt_hash bcrypt_compare db →
  events db !! i = Some e →
  owner_count db e = 1%nat.
Proof.
  intros Hreach Hi. apply owner_count_1.
  by apply (reachable_owned_owners_exist db Hreach i e).
Qed.

End Owners.

Lemma ana_with_events_reachable_owned :
  reachable_owned plain_hash plain_compare ana_with_events.
Proof.
  unfold ana_with_events, run.
  apply reachable_owned_handle; [|by eexists].
  apply reachable_owned_handle; [|by eexists].
  unfold ana_registered.
  apply (reachable_owned_handle _ _ (Register _ _ _ _ _)); [|done].
  constructor.
Qed.

Lemma events_have_one_owner_witness :
  owner_count ana_with_events
    (EventSchema.mk 0%nat "Concerto" "Coliseu" 1767225600000) = 1%nat.
Proof.
  apply (events_have_one_owner plain_hash plain_compare ana_with_events 1%nat).
  - exact ana_with_events_reachable_owned.
  - reflexivity.
Defined.

(** C8 as first stated fails: [create_event] stores an event for any
    [userId], so the first request to a fresh server can create an event
    whose owner is no user.  The state is reachable whatever the
    credential scheme. *)
Lemma create_event_without_owner :
  let db := db_after (create_event 7%nat "Concerto" "Coliseu" 1767225600000 empty_db) in
  (∀ bcrypt_hash bcrypt_compare, reachable bcrypt_hash bcrypt_compare db) ∧
  events db !! 0%nat = Some (EventSchema.mk 7%nat "Concerto" "Coliseu" 1767225600000) ∧
  users db !! 7%nat = None ∧
  owner_count db (EventSchema.mk 7%nat "Concerto" "Coliseu" 1767225600000) = 0%nat.
Proof.
  cbv zeta. split; [|split; [|split]]; try reflexivity.
  intros bcrypt_hash bcrypt_compare.
  apply (reachable_handle bcrypt_hash bcrypt_compare
           (CreateEvent 7%nat "Concerto" "Coliseu" 1767225600000) empty_db).
  constructor.
Qed.

(** ** What the handlers ask of bcrypt *)

Section RegisterThenLogin.
Variable bcrypt_hash : string → string → string.
Variable bcrypt_compare : string → string → bool.

(** X8. After a registration for an unused email with non-empty name,
    email and hash and a valid birth date, in a well-formed store,
    [login] with the same email is decided by comparing the password
    sent with the hash stored at registration: the new user can log in
    exactly when [bcrypt.compare] accepts the password against that
    hash. *)
Lemma login_after_register name email password birthDate salt db attempt :
  db_wf db →
  (∀ i v, users db !! i = Some v → UserSchema.email v ≠ email) →
  name ≠ "" → email ≠ "" → bcrypt_hash password salt ≠ "" →
  valid_date birthDate →
  response
    (login bcrypt_compare email attempt
       (db_after (register bcrypt_hash name email password birthDate salt db)))
  = if bcrypt_compare attempt (bcrypt_hash password salt)
    then mkResponse 200 (LoginBody (next_oid db) name email)
    else invalid_credentials.
Proof.
  intros Hwf Hnone Hn He Hp Hd.
  assert (users db !! next_oid db = None) as Hfresh.
  { destruct (users db !! next_oid db) as [v|] eqn:Hv; [|done].
    pose proof (wf_user_ids _ Hwf _ _ Hv). lia. }
  rewrite register_eq.
  assert (first_match (UserSchema.matches (UserSchema.ByEmail email)) (users db)
          = None) as ->.
  { apply first_match_None. intros i v Hi Hv. by apply (Hnone i v). }
  cbv zeta.
  destruct (decide (User.validate _ = ∅)) as [_|Hbad];
    [|destruct Hbad; by apply user_validate_empty].
  case_decide as Hdup; [rewrite Hfresh in Hdup; by destruct Hdup|].
  unfold db_after. cbn [fst snd]. rewrite login_eq. unfold response. cbn [fst users].
  rewrite (first_match_email _ email (next_oid db)
             (UserSchema.mk name email (bcrypt_hash password salt) birthDate)).
  - done.
  - apply emails_unique_insert_fresh; [apply Hwf|]. intros j v Hj. by apply (Hnone j v).
  - apply lookup_insert_eq.
  - done.
Qed.

End RegisterThenLogin.

(** ** Further properties of the routes *)

Lemma fresh_user_id db : db_wf db → users db !! next_oid db = None.
Proof.
  intros Hwf. destruct (users db !! next_oid db) as [v|] eqn:Hv; [|done].
  pose proof (wf_user_ids _ Hwf _ _ Hv). lia.
Qed.

Lemma fresh_event_id db : db_wf db → events db !! next_oid db = None.
Proof.
  intros Hwf. destruct (events db !! next_oid db) as [v|] eqn:Hv; [|done].
  pose proof (wf_event_ids _ Hwf _ _ Hv). lia.
Qed.

Lemma register_created_eq bcrypt_hash name email password birthDate salt db :
  db_wf db →
  (∀ i v, users db !! i = Some v → UserSchema.email v ≠ email) →
  name ≠ "" → email ≠ "" → bcrypt_hash password salt ≠ "" →
  valid_date birthDate →
  register bcrypt_hash name email password birthDate salt db
  = (mkResponse 201 (Message "Utilizador criado com sucesso!"),
     mkDb (<[next_oid db :=
               UserSchema.mk name email (bcrypt_hash password salt) birthDate]>
             (users db))
          (events db) (S (next_oid db)),
     [UserFindOne (UserSchema.ByEmail email); UserSave (next_oid db)]).
Proof.
  intros Hwf Hnone Hn He Hp Hd. rewrite register_eq.
  assert (first_match (UserSchema.matches (UserSchema.ByEmail email)) (users db)
          = None) as ->.
  { apply first_match_None. intros i v Hi Hv. by apply (Hnone i v). }
  cbv zeta.
  destruct (decide (User.validate _ = ∅)) as [_|Hbad];
    [|destruct Hbad; by apply user_validate_empty].
  case_decide as Hdup; [|done].
  rewrite (fresh_user_id _ Hwf) in Hdup. by destruct Hdup.
Qed.

Lemma create_event_created_eq userId eventName venue dateTime db :
  db_wf db → eventName ≠ "" → venue ≠ "" → valid_date dateTime →
  create_event userId eventName venue dateTime db
  = (mkResponse 201
       (EventBody (next_oid db) (EventSchema.mk userId eventName venue dateTime)),
     mkDb (users db)
          (<[next_oid db := EventSchema.mk userId eventName venue dateTime]>
             (events db))
          (S (next_oid db)),
     [EventSave (next_oid db)]).
Proof.
  intros Hwf Hn Hv Hd. rewrite create_event_eq. cbv zeta.
  destruct (decide (Event.validate _ = ∅)) as [_|Hbad];
    [|destruct Hbad; by apply event_validate_empty].
  case_decide as Hdup; [|done].
  rewrite (fresh_event_id _ Hwf) in Hdup. by destruct Hdup.
Qed.

(** No user of a store from which [id] was deleted has the email the
    deleted user had. *)
Lemma email_free_after_delete (us : gmap nat UserSchema.doc) id user :
  emails_unique us → us !! id = Some user →
  ∀ j v, delete id us !! j = Some v → UserSchema.email v ≠ UserSchema.email user.
Proof.
  intros Huniq Hid j v [Hne Hj]%lookup_delete_Some Heq.
  apply Hne. symmetry. by apply (Huniq j id v user).
Qed.

Section Routes.
Variable bcrypt_hash : string → string → string.
Variable bcrypt_compare : string → string → bool.

(** X1. With unique emails, a login with the email of a stored user and
    a password that verifies against that user's hash answers 200 with
    the id, name and email of that user, leaves the store as it was, and
    makes the one lookup by email. *)
Theorem login_success db i u password :
  emails_unique (users db) →
  users db !! i = Some u →
  bcrypt_compare password (UserSchema.password u) = true →
  login bcrypt_compare (UserSchema.email u) password db
  = (mkResponse 200 (LoginBody i (UserSchema.name u) (UserSchema.email u)), db,
     [UserFindOne (UserSchema.ByEmail (UserSchema.email u))]).
Proof.
  intros Huniq Hi Hcmp. rewrite login_eq.
  by rewrite (first_match_email _ _ i u Huniq Hi eq_refl), Hcmp.
Qed.

(** X2. [delete_own_account] answers 404 and changes nothing for an id
    of no user; it answers 200 exactly when the user exists and the
    password verifies against the stored hash; and in every other case
    the store is what it was. *)
Theorem delete_own_account_guard id password db :
  let r := delete_own_account bcrypt_compare id password db in
  let authorised :=
    ∃ user, users db !! id = Some user ∧
            bcrypt_compare password (UserSchema.password user) = true in
  (users db !! id = None →
   r = (mkResponse 404 (Message "Utilizador não encontrado."), db,
        [UserFindById id])) ∧
  (status (response r) = 200%nat ↔ authorised) ∧
  (¬ authorised → db_after r = db).
Proof.
  cbv zeta. rewrite delete_own_account_eq. unfold response, db_after.
  destruct (users db !! id) as [user|] eqn:Hu.
  - destruct (bcrypt_compare _ _) eqn:Hcmp; cbn [fst snd status].
    + split; [done|]. split; [|intros []; eauto]. split; eauto.
    + split; [done|]. split; [|done]. split; [done|].
      intros (v & [= <-] & Hv). congruence.
  - cbn [fst snd status]. split; [done|]. split; [|done]. split; [done|].
    by intros (v & ? & _).
Qed.

(** X3. [delete_event] for an id of no event answers 404 and changes
    nothing.  For a stored event it answers 200 and removes that event
    only, whoever owns it: the other events and the users stay, and a
    second deletion of the same id answers 404. *)
Theorem delete_event_removes_one id db :
  let r := delete_event id db in
  (events db !! id = None →
   r = (mkResponse 404 (Message "Evento não encontrado."), db,
        [EventFindByIdAndDelete id])) ∧
  (is_Some (events db !! id) →
   response r = mkResponse 200 (Message "Evento apagado com sucesso.") ∧
   events (db_after r) !! id = None ∧
   (∀ j, j ≠ id → events (db_after r) !! j = events db !! j) ∧
   users (db_after r) = users db ∧
   delete_event id (db_after r)
   = (mkResponse 404 (Message "Evento não encontrado."), db_after r,
      [EventFindByIdAndDelete id])).
Proof.
  cbv zeta. rewrite delete_event_eq. split.
  - by intros ->.
  - intros [e ->]. unfold response, db_after. cbn [fst snd users events].
    split; [done|]. split; [apply lookup_delete_eq|].
    split; [intros j Hj; by apply lookup_delete_ne|]. split; [done|].
    rewrite delete_event_eq. cbn [events]. by rewrite lookup_delete_eq.
Qed.

(** X11. A route changes a collection only if it is one of those that
    write to it: [users] is left as it was by every request other than
    Register, ResetPassword and DeleteOwnAccount, [events] by every
    request other than DeleteOwnAccount, CreateEvent and DeleteEvent,
    and Login, VerifyIdentity and ListEvents leave the whole store as it
    was. *)
Theorem handle_frame r db :
  let db' := db_after (handle bcrypt_hash bcrypt_compare r db) in
  (touches_users r = false → users db' = users db) ∧
  (touches_events r = false → events db' = events db) ∧
  (touches_users r = false → touches_events r = false → db' = db).
Proof.
  cbv zeta. destruct r; simpl.
  - rewrite register_eq. split; [done|]. split; [|done]. intros _.
    destruct (first_match _ _) as [[i v]|]; [done|].
    cbv zeta. unfold db_after. cbn [fst snd].
    destruct (decide (User.validate _ = ∅)) as [Hvalid|Hinvalid]; [|done]. by case_decide.
  - by rewrite login_eq.
  - by rewrite verify_identity_eq.
  - rewrite reset_password_eq. split; [done|]. split; [|done]. intros _.
    by destruct (users db !! userId).
  - done.
  - rewrite create_event_eq. split; [|done]. intros _.
    cbv zeta. unfold db_after. cbn [fst snd].
    destruct (decide (Event.validate _ = ∅)) as [Hvalid|Hinvalid]; [|done]. by case_decide.
  - by rewrite list_events_eq.
  - rewrite delete_event_eq. split; [|done]. intros _.
    by destruct (events db !! id).
Qed.

End Routes.

(** X12. Listing the events of an id that owns none, the id of no user
    included, is no error: the answer is 200 with the empty list. *)
Theorem list_events_no_events owner db :
  (∀ i e, events db !! i = Some e → EventSchema.userId e ≠ owner) →
  list_events owner db = (mkResponse 200 (EventsBody []), db, [EventFind owner]).
Proof.
  intros Hnone. destruct (list_events_spec owner db) as (l & -> & Hin & _).
  do 4 f_equal. apply elem_of_nil_inv. intros [i e] [Hie Ho]%Hin.
  by apply (Hnone i e).
Qed.

Lemma login_success_witness :
  login plain_compare "ana@agenda.pt" "segredo" ana_with_events
  = (mkResponse 200 (LoginBody 0%nat "Ana" "ana@agenda.pt"), ana_with_events,
     [UserFindOne (UserSchema.ByEmail "ana@agenda.pt")]).
Proof.
  apply (login_success plain_compare ana_with_events 0%nat
           (UserSchema.mk "Ana" "ana@agenda.pt" "segredo" 631152000000)).
  - exact (wf_emails _ (reachable_wf _ _ _ ana_with_events_reachable)).
  - reflexivity.
  - reflexivity.
Defined.

Lemma list_events_no_events_witness :
  list_events 9%nat ana_with_events
  = (mkResponse 200 (EventsBody []), ana_with_events, [EventFind 9%nat]).
Proof.
  apply list_events_no_events. intros i e Hie.
  assert (events ana_with_events
          = <[2%nat := EventSchema.mk 0%nat "Jantar" "Casa" 1764547200000]>
              (<[1%nat := EventSchema.mk 0%nat "Concerto" "Coliseu" 1767225600000]>
                 ∅)) as Hev by reflexivity.
  rewrite Hev in Hie.
  apply lookup_insert_Some in Hie as [[_ <-]|[_ Hie]]; [discriminate|].
  apply lookup_insert_Some in Hie as [[_ <-]|[_ Hie]]; [discriminate|].
  by rewrite lookup_empty in Hie.
Defined.

(** ** Creating events *)

(** X4. In a well-formed store, [create_event] with a non-empty name
    and venue and a valid date answers 201 with the event under its
    fresh id, the event then shows in the list of its [userId], the
    events stored before are all kept, and the users are untouched. *)
Theorem create_event_listed userId eventName venue dateTime db :
  db_wf db → eventName ≠ "" → venue ≠ "" → valid_date dateTime →
  let e := EventSchema.mk userId eventName venue dateTime in
  let r := create_event userId eventName venue dateTime db in
  response r = mkResponse 201 (EventBody (next_oid db) e) ∧
  (∃ l, response (list_events userId (db_after r)) = mkResponse 200 (EventsBody l) ∧
        (next_oid db, e) ∈ l) ∧
  (∀ i e', events db !! i = Some e' → events (db_after r) !! i = Some e') ∧
  users (db_after r) = users db.
Proof.
  intros Hwf Hn Hv Hd e r. subst e r. rewrite create_event_created_eq by done.
  unfold response, db_after. cbn [fst snd users events].
  split; [done|]. split; [|split; [|done]].
  - match goal with |- context [list_events ?o ?d] =>
      destruct (list_events_spec o d) as (l & -> & Hin & _) end.
    exists l. split; [done|]. apply Hin. cbn [events].
    split; [apply lookup_insert_eq | done].
  - intros i e' Hi. rewrite lookup_insert_ne; [done|].
    intros <-. by rewrite (fresh_event_id _ Hwf) in Hi.
Qed.

(** X5. [create_event] with an empty name, an empty venue or a date
    that is no valid Date is turned down by the schema: the answer is
    500 with the validation error of exactly the paths that failed, and
    no event is stored. *)
Theorem create_event_required_fields userId eventName venue dateTime db :
  eventName = "" ∨ venue = "" ∨ ¬ valid_date dateTime →
  let r := create_event userId eventName venue dateTime db in
  (∃ paths,
     response r = server_error "Erro ao criar evento" (ValidationError paths) ∧
     ∀ p, p ∈ paths ↔
          (p = "eventName" ∧ eventName = "") ∨
          (p = "venue" ∧ venue = "") ∨
          (p = "dateTime" ∧ ¬ valid_date dateTime)) ∧
  events (db_after r) = events db ∧
  users (db_after r) = users db.
Proof.
  intros Hfail r. subst r. rewrite create_event_eq. cbv zeta.
  unfold response, db_after.
  destruct (decide (Event.validate _ = ∅)) as [Hok|Hbad].
  - apply event_validate_empty in Hok as (Hn & Hv & Hd). simpl in *. tauto.
  - cbn [fst snd users events]. split; [|done].
    eexists. split; [done|]. intros p. by rewrite elem_of_event_validate.
Qed.

(** X6. In a well-formed store, deleting the event that [create_event]
    has just stored (non-empty name and venue, valid date) gives the
    collections back as they were before the creation. *)
Theorem create_then_delete_event userId eventName venue dateTime db :
  db_wf db → eventName ≠ "" → venue ≠ "" → valid_date dateTime →
  let r := create_event userId eventName venue dateTime db in
  let r' := delete_event (next_oid db) (db_after r) in
  response r' = mkResponse 200 (Message "Evento apagado com sucesso.") ∧
  events (db_after r') = events db ∧
  users (db_after r') = users db.
Proof.
  intros Hwf Hn Hv Hd r r'. subst r r'. rewrite create_event_created_eq by done.
  unfold response, db_after. cbn [fst snd]. rewrite delete_event_eq.
  cbn [fst snd events users]. rewrite lookup_insert_eq. cbn [fst snd events users].
  split; [done|]. split; [|done].
  apply delete_insert_id, fresh_event_id, Hwf.
Qed.

Lemma valid_date_sample : valid_date 1770000000000.
Proof. unfold valid_date. lia. Qed.

Lemma create_event_listed_witness :
  let r := create_event 0%nat "Ensaio" "Garagem" 1770000000000 ana_with_events in
  response r
  = mkResponse 201
      (EventBody 3%nat (EventSchema.mk 0%nat "Ensaio" "Garagem" 1770000000000)) ∧
  users (db_after r) = users ana_with_events.
Proof.
  destruct (create_event_listed 0%nat "Ensaio" "Garagem" 1770000000000
              ana_with_events
              (reachable_wf _ _ _ ana_with_events_reachable))
    as (Hr & _ & _ & Hu); [discriminate | discriminate | exact valid_date_sample |].
  exact (conj Hr Hu).
Defined.

Lemma create_event_required_fields_witness :
  let r := create_event 0%nat "" "Garagem" 8640000000000001 ana_with_events in
  (∃ paths,
     response r = server_error "Erro ao criar evento" (ValidationError paths) ∧
     ∀ p, p ∈ paths ↔
          (p = "eventName" ∧ "" = "") ∨
          (p = "venue" ∧ "Garagem" = "") ∨
          (p = "dateTime" ∧ ¬ valid_date 8640000000000001)) ∧
  events (db_after r) = events ana_with_events.
Proof.
  destruct (create_event_required_fields 0%nat "" "Garagem" 8640000000000001
              ana_with_events (or_introl eq_refl))
    as (Hr & He & _).
  exact (conj Hr He).
Defined.

Lemma create_then_delete_event_witness :
  let r := create_event 0%nat "Ensaio" "Garagem" 1770000000000 ana_with_events in
  events (db_after (delete_event 3%nat (db_after r))) = events ana_with_events.
Proof.
  destruct (create_then_delete_event 0%nat "Ensaio" "Garagem" 1770000000000
              ana_with_events
              (reachable_wf _ _ _ ana_with_events_reachable))
    as (_ & He & _); [discriminate | discriminate | exact valid_date_sample |].
  exact He.
Defined.

(** ** Accounts over several requests *)

Section Accounts.
Variable bcrypt_hash : string → string → string.
Variable bcrypt_compare : string → string → bool.

(** X7. After a registration for an unused email with non-empty name,
    email and hash and a valid birth date, in a well-formed store, a
    second registration with the same email answers 400 "Email já está
    em uso." whatever its other fields are, and stores nothing. *)
Theorem register_twice_email_in_use
    name email password birthDate salt name' password' birthDate' salt' db :
  db_wf db →
  (∀ i v, users db !! i = Some v → UserSchema.email v ≠ email) →
  name ≠ "" → email ≠ "" → bcrypt_hash password salt ≠ "" →
  valid_date birthDate →
  let db1 := db_after (register bcrypt_hash name email password birthDate salt db) in
  register bcrypt_hash name' email password' birthDate' salt' db1
  = (mkResponse 400 (Message "Email já está em uso."), db1,
     [UserFindOne (UserSchema.ByEmail email)]).
Proof.
  intros Hwf Hnone Hn He Hp Hd db1. subst db1.
  rewrite (register_created_eq bcrypt_hash name email password birthDate salt db)
    by done.
  unfold db_after. cbn [fst snd]. rewrite register_eq. cbn [users].
  destruct (first_match_is_Some (UserSchema.matches (UserSchema.ByEmail email))
              (<[next_oid db :=
                   UserSchema.mk name email (bcrypt_hash password salt) birthDate]>
                 (users db))
              (next_oid db)
              (UserSchema.mk name email (bcrypt_hash password salt) birthDate))
    as [[j w] ->]; [apply lookup_insert_eq | reflexivity | reflexivity].
Qed.

(** X15. After a registration for an unused email with non-empty
    name, email and hash and a valid birth date, in a well-formed store,
    the identity check with the same email and birth date answers 200
    with the id of the new record. *)
Theorem register_then_verify_identity name email password birthDate salt db :
  db_wf db →
  (∀ i v, users db !! i = Some v → UserSchema.email v ≠ email) →
  name ≠ "" → email ≠ "" → bcrypt_hash password salt ≠ "" →
  valid_date birthDate →
  response
    (verify_identity email birthDate
       (db_after (register bcrypt_hash name email password birthDate salt db)))
  = mkResponse 200 (UserIdBody (next_oid db)).
Proof.
  intros Hwf Hnone Hn He Hp Hd.
  rewrite register_created_eq by done. unfold db_after. cbn [fst snd].
  rewrite verify_identity_eq. unfold response. cbn [fst users].
  destruct (decide (valid_date birthDate)) as [_|?]; [|done].
  rewrite (first_match_unique _ _ (next_oid db)
             (UserSchema.mk name email (bcrypt_hash password salt) birthDate)).
  - done.
  - apply lookup_insert_eq.
  - done.
  - intros j v [[<- _]|[_ Hj]]%lookup_insert_Some [Hv _]; [done|].
    by destruct (Hnone j v).
Qed.

(** X10. The recovery flow.  If bcrypt verifies a password against its
    own hash and emails are unique, then the id the identity check
    answers with is accepted by [reset_password], and afterwards the
    email of the check logs in with the new password, as that same id. *)
Theorem recover_password email birthDate newPassword salt db id :
  (∀ p s, bcrypt_compare p (bcrypt_hash p s) = true) →
  emails_unique (users db) →
  response (verify_identity email birthDate db) = mkResponse 200 (UserIdBody id) →
  let r := reset_password bcrypt_hash id newPassword salt db in
  response r = mkResponse 200 (Message "Senha redefinida com sucesso!") ∧
  ∃ name,
    response (login bcrypt_compare email newPassword (db_after r))
    = mkResponse 200 (LoginBody id name email).
Proof.
  intros Hsame Huniq Hverify r. subst r.
  rewrite verify_identity_eq in Hverify. unfold response in Hverify.
  cbn [fst] in Hverify.
  destruct (decide (valid_date birthDate)) as [_|?]; [|done].
  destruct (first_match _ _) as [[i u]|] eqn:Hfind; [|done].
  injection Hverify as ->.
  destruct (first_match_Some _ _ _ _ Hfind) as [Hu [<- _]].
  split.
  - by rewrite reset_password_eq, Hu.
  - exists (UserSchema.name u). by rewrite login_after_reset, Hsame.
Qed.

(** X13. With unique emails, once [delete_own_account] has deleted a
    user, no user has that email: [login] with it is turned down for
    every password and the identity check with it answers 404 for every
    birth date that is a valid Date. *)
Theorem deleted_account_is_gone id password db user :
  emails_unique (users db) →
  users db !! id = Some user →
  bcrypt_compare password (UserSchema.password user) = true →
  let db' := db_after (delete_own_account bcrypt_compare id password db) in
  (∀ j v, users db' !! j = Some v → UserSchema.email v ≠ UserSchema.email user) ∧
  (∀ p, response (login bcrypt_compare (UserSchema.email user) p db')
        = invalid_credentials) ∧
  (∀ b, valid_date b →
        response (verify_identity (UserSchema.email user) b db')
        = mkResponse 404 (Message "Dados não encontrados.")).
Proof.
  intros Huniq Hu Hcmp db'. subst db'.
  rewrite delete_own_account_eq, Hu, Hcmp. unfold db_after. cbn [fst snd users].
  pose proof (email_free_after_delete _ _ _ Huniq Hu) as Hfree.
  split; [done|]. split.
  - intros p. rewrite login_eq. unfold response. cbn [fst users].
    assert (first_match
              (UserSchema.matches (UserSchema.ByEmail (UserSchema.email user)))
              (delete id (users db)) = None) as ->; [|done].
    apply first_match_None. intros j v Hj Hv. by apply (Hfree j v).
  - intros b Hb. rewrite verify_identity_eq. unfold response. cbn [fst users].
    destruct (decide (valid_date b)) as [_|?]; [|done].
    assert (first_match
              (UserSchema.matches
                 (UserSchema.ByEmailBirthDate (UserSchema.email user) b))
              (delete id (users db)) = None) as ->; [|done].
    apply first_match_None. intros j v Hj [Hv _]. by apply (Hfree j v).
Qed.

(** X14. In a well-formed store, the email of a deleted account is
    free again: a registration with it (non-empty name, email and hash,
    valid birth date) creates a record under a fresh id. *)
Theorem deleted_account_email_free
    id password db user name password' birthDate salt :
  db_wf db →
  users db !! id = Some user →
  bcrypt_compare password (UserSchema.password user) = true →
  name ≠ "" → UserSchema.email user ≠ "" → bcrypt_hash password' salt ≠ "" →
  valid_date birthDate →
  let db' := db_after (delete_own_account bcrypt_compare id password db) in
  response
    (register bcrypt_hash name (UserSchema.email user) password' birthDate salt db')
  = mkResponse 201 (Message "Utilizador criado com sucesso!") ∧
  users
    (db_after
       (register bcrypt_hash name (UserSchema.email user) password' birthDate salt
          db'))
    !! next_oid db
  = Some (UserSchema.mk name (UserSchema.email user) (bcrypt_hash password' salt)
            birthDate) ∧
  next_oid db ≠ id.
Proof.
  intros Hwf Hu Hcmp Hn He Hp Hd db'.
  assert (db_wf db') as Hwf' by apply delete_own_account_wf, Hwf.
  assert (next_oid db' = next_oid db ∧ users db' = delete id (users db))
    as [Hnext Husers].
  { subst db'. by rewrite delete_own_account_eq, Hu, Hcmp. }
  rewrite register_created_eq; try done.
  - unfold response, db_after. cbn [fst snd users]. rewrite Hnext.
    split; [done|]. split; [apply lookup_insert_eq|].
    intros Heq. pose proof (wf_user_ids _ Hwf _ _ Hu). lia.
  - rewrite Husers. apply (email_free_after_delete _ _ _ (wf_emails _ Hwf) Hu).
Qed.

(** X9. In every state the server reaches, no two users have the same
    email, every stored user has a non-empty name and email, and every
    stored event a non-empty name and venue. *)
Theorem reachable_store_invariants db :
  reachable bcrypt_hash bcrypt_compare db →
  emails_unique (users db) ∧ schema_valid db.
Proof.
  intros Hreach. split; [apply (reachable_wf _ _ _ Hreach)|].
  induction Hreach as [|r db _ [IHu IHe]].
  - split; intros i x Hi; simpl in Hi; by rewrite lookup_empty in Hi.
  - destruct r; simpl.
    + rewrite register_eq. destruct (first_match _ _) as [[j v]|]; [done|].
      cbv zeta. unfold db_after. cbn [fst snd].
      destruct (decide (User.validate _ = ∅)) as [Hval|]; [|done]. case_decide; [done|].
      apply user_validate_empty in Hval as (Hn & He & _).
      cbn [fst snd]. split; [|done]. cbn [users].
      intros i u [[_ <-]|[_ Hi]]%lookup_insert_Some; [done | by apply (IHu i)].
    + by rewrite login_eq.
    + by rewrite verify_identity_eq.
    + rewrite reset_password_eq. unfold db_after.
      destruct (users db !! userId) as [u0|] eqn:Hu0; [|done].
      split; [|done]. cbn [fst snd users].
      intros i u [[<- <-]|[_ Hi]]%lookup_insert_Some;
        [by apply (IHu userId u0) | by apply (IHu i)].
    + rewrite delete_own_account_eq. unfold db_after.
      destruct (users db !! id) as [u0|]; [|done].
      destruct (bcrypt_compare _ _); [|done]. cbn [fst snd]. split; cbn [users events].
      * intros i u [_ Hi]%lookup_delete_Some. by apply (IHu i).
      * intros i e [Hi _]%map_lookup_filter_Some. by apply (IHe i).
    + rewrite create_event_eq. cbv zeta. unfold db_after. cbn [fst snd].
      destruct (decide (Event.validate _ = ∅)) as [Hval|]; [|done]. case_decide; [done|].
      apply event_validate_empty in Hval as (Hn & Hv & _).
      cbn [fst snd]. split; [done|]. cbn [events].
      intros i e [[_ <-]|[_ Hi]]%lookup_insert_Some; [done | by apply (IHe i)].
    + by rewrite list_events_eq.
    + rewrite delete_event_eq. unfold db_after.
      destruct (events db !! id) as [e0|]; [|done].
      split; [done|]. cbn [fst snd events].
      intros i e [_ Hi]%lookup_delete_Some. by apply (IHe i).
Qed.

End Accounts.

Lemma valid_date_birth : valid_date 631152000000.
Proof. unfold valid_date. lia. Qed.

Lemma empty_db_no_email email :
  ∀ i v, users empty_db !! i = Some v → UserSchema.email v ≠ email.
Proof. intros i v Hi. simpl in Hi. by rewrite lookup_empty in Hi. Qed.

Lemma register_twice_email_in_use_witness :
  register plain_hash "Outra Ana" "ana@agenda.pt" "outra" 662688000000 "t"
    ana_registered
  = (mkResponse 400 (Message "Email já está em uso."), ana_registered,
     [UserFindOne (UserSchema.ByEmail "ana@agenda.pt")]).
Proof.
  apply (register_twice_email_in_use plain_hash
           "Ana" "ana@agenda.pt" "segredo" 631152000000 "s"
           "Outra Ana" "outra" 662688000000 "t" empty_db).
  - exact empty_db_wf.
  - apply empty_db_no_email.
  - discriminate.
  - discriminate.
  - discriminate.
  - exact valid_date_birth.
Defined.

Lemma register_then_verify_identity_witness :
  response (verify_identity "ana@agenda.pt" 631152000000 ana_registered)
  = mkResponse 200 (UserIdBody 0%nat).
Proof.
  apply (register_then_verify_identity plain_hash
           "Ana" "ana@agenda.pt" "segredo" 631152000000 "s" empty_db).
  - exact empty_db_wf.
  - apply empty_db_no_email.
  - discriminate.
  - discriminate.
  - discriminate.
  - exact valid_date_birth.
Defined.

Lemma login_after_register_witness :
  response (login plain_compare "ana@agenda.pt" "segredo" ana_registered)
  = mkResponse 200 (LoginBody 0%nat "Ana" "ana@agenda.pt") ∧
  response (login plain_compare "ana@agenda.pt" "errada" ana_registered)
  = invalid_credentials.
Proof.
  split.
  - apply (login_after_register plain_hash plain_compare
             "Ana" "ana@agenda.pt" "segredo" 631152000000 "s" empty_db "segredo").
    + exact empty_db_wf.
    + apply empty_db_no_email.
    + discriminate.
    + discriminate.
    + discriminate.
    + exact valid_date_birth.
  - apply (login_after_register plain_hash plain_compare
             "Ana" "ana@agenda.pt" "segredo" 631152000000 "s" empty_db "errada").
    + exact empty_db_wf.
    + apply empty_db_no_email.
    + discriminate.
    + discriminate.
    + discriminate.
    + exact valid_date_birth.
Defined.

Lemma recover_password_witness :
  let r := reset_password plain_hash 0%nat "nova" "s" ana_registered in
  response r = mkResponse 200 (Message "Senha redefinida com sucesso!") ∧
  ∃ name,
    response (login plain_compare "ana@agenda.pt" "nova" (db_after r))
    = mkResponse 200 (LoginBody 0%nat name "ana@agenda.pt").
Proof.
  apply (recover_password plain_hash plain_compare "ana@agenda.pt" 631152000000
           "nova" "s" ana_registered 0%nat).
  - exact plain_compare_hash.
  - exact (wf_emails _ (reachable_wf _ _ _ ana_registered_reachable)).
  - reflexivity.
Defined.

Lemma deleted_account_is_gone_witness :
  let db' := db_after (delete_own_account plain_compare 0%nat "segredo"
                         ana_with_events) in
  response (login plain_compare "ana@agenda.pt" "segredo" db') = invalid_credentials ∧
  response (verify_identity "ana@agenda.pt" 631152000000 db')
  = mkResponse 404 (Message "Dados não encontrados.").
Proof.
  destruct (deleted_account_is_gone plain_compare 0%nat "segredo" ana_with_events
              (UserSchema.mk "Ana" "ana@agenda.pt" "segredo" 631152000000)
              (wf_emails _ (reachable_wf _ _ _ ana_with_events_reachable))
              eq_refl eq_refl)
    as (_ & Hlogin & Hverify).
  exact (conj (Hlogin "segredo") (Hverify 631152000000 valid_date_birth)).
Defined.

Lemma deleted_account_email_free_witness :
  let db' := db_after (delete_own_account plain_compare 0%nat "segredo"
                         ana_with_events) in
  response (register plain_hash "Ana" "ana@agenda.pt" "outra" 631152000000 "t" db')
  = mkResponse 201 (Message "Utilizador criado com sucesso!").
Proof.
  destruct (deleted_account_email_free plain_hash plain_compare 0%nat "segredo"
              ana_with_events
              (UserSchema.mk "Ana" "ana@agenda.pt" "segredo" 631152000000)
              "Ana" "outra" 631152000000 "t"
              (reachable_wf _ _ _ ana_with_events_reachable) eq_refl eq_refl)
    as (Hr & _);
    [discriminate | discriminate | discriminate | exact valid_date_birth |].
  exact Hr.
Defined.

Lemma reachable_store_invariants_witness :
  emails_unique (users ana_with_events) ∧ schema_valid ana_with_events.
Proof.
  exact (reachable_store_invariants plain_hash plain_compare ana_with_events
           ana_with_events_reachable).
Defined.

(** X16. After [delete_event], the list of any owner is the list from
    before without the deleted event: nothing else leaves it and nothing
    enters it. *)
Theorem delete_event_then_list id owner db :
  ∃ l l',
    response (list_events owner db) = mkResponse 200 (EventsBody l) ∧
    response (list_events owner (db_after (delete_event id db)))
    = mkResponse 200 (EventsBody l') ∧
    ∀ i e, (i, e) ∈ l' ↔ (i, e) ∈ l ∧ i ≠ id.
Proof.
  destruct (list_events_spec owner db) as (l & Hl & Hin & _).
  destruct (list_events_spec owner (db_after (delete_event id db)))
    as (l' & Hl' & Hin' & _).
  exists l, l'. rewrite Hl, Hl'. do 2 (split; [done|]).
  intros i e. rewrite Hin, Hin', delete_event_eq. unfold db_after.
  destruct (events db !! id) as [e0|] eqn:He0; cbn [fst snd events].
  - rewrite lookup_delete_Some.
    split; [intros [[Hne Hi] Ho] | intros [[Hi Ho] Hne]];
      repeat split; try done; congruence.
  - split; [|by intros [? _]]. intros [Hi Ho]. split; [done|].
    intros ->. congruence.
Qed.
